(** * shelly-monitor: the sampling loop and the change-interval analysis

    A shallow embedding of [shelly-monitor.py].  The class [ShellyMonitor]
    becomes a record that is threaded through its methods; the outside
    world (the device, the clocks, the interrupt signal) is a finite trace
    of [Tick]s, one per iteration of the polling loop; what the program
    prints, sleeps and writes is collected in a list of [Effect]s.

    Numbers: Python integers are [Z].  A Python float (power values, clock
    readings, the sampling period, the average) is a binary64 number and is
    represented by its exact rational value in [Q]; every arithmetic
    operation on floats rounds its exact result to the nearest binary64
    number, ties to even.  Infinities, NaN, the sign of zero and
    [OverflowError] (results beyond the binary64 range) are not
    represented.

    Readings: the power of a successful poll is a number.  [get_power]
    itself, modelled further down, hands on any JSON value; a value that is
    not a number makes the progress line of the loop raise, a NaN is
    unequal to itself, and a [null] counts as no reading without an error
    line: the traces of [Tick]s do not contain such polls. *)

From Stdlib Require Import List ZArith QArith Qabs Qminmax String Ascii Bool Lia.
From Stdlib Require Import DecimalString.
Import ListNotations.

Local Open Scope Z_scope.

(** ** The instance state *)

(** One row of [self.data]: [[timestamp, power]]. *)
Definition Reading : Type := (Q * Q)%type.

Record ShellyMonitor : Type := mkShellyMonitor {
  ip : string;
  url : string;
  data : list Reading;
  last_measurement : option Q;
  intervals : list Z;
  last_change_idx : option Z;
  running : bool;
  sampling_period : Q;
  csv_file : string;
  plot_file : string;
  analysis_file : string
}.

Definition set_data (self : ShellyMonitor) (d : list Reading) : ShellyMonitor :=
  mkShellyMonitor (ip self) (url self) d (last_measurement self)
    (intervals self) (last_change_idx self) (running self)
    (sampling_period self) (csv_file self) (plot_file self)
    (analysis_file self).

Definition set_last_measurement (self : ShellyMonitor) (m : option Q)
  : ShellyMonitor :=
  mkShellyMonitor (ip self) (url self) (data self) m
    (intervals self) (last_change_idx self) (running self)
    (sampling_period self) (csv_file self) (plot_file self)
    (analysis_file self).

Definition set_intervals (self : ShellyMonitor) (l : list Z) : ShellyMonitor :=
  mkShellyMonitor (ip self) (url self) (data self) (last_measurement self)
    l (last_change_idx self) (running self)
    (sampling_period self) (csv_file self) (plot_file self)
    (analysis_file self).

Definition set_last_change_idx (self : ShellyMonitor) (i : option Z)
  : ShellyMonitor :=
  mkShellyMonitor (ip self) (url self) (data self) (last_measurement self)
    (intervals self) i (running self)
    (sampling_period self) (csv_file self) (plot_file self)
    (analysis_file self).

Definition set_running (self : ShellyMonitor) (b : bool) : ShellyMonitor :=
  mkShellyMonitor (ip self) (url self) (data self) (last_measurement self)
    (intervals self) (last_change_idx self) b
    (sampling_period self) (csv_file self) (plot_file self)
    (analysis_file self).

(** [__init__]: [stamp] is the text [datetime.now().strftime(...)] gave. *)
Definition init (ip_address stamp : string) : ShellyMonitor :=
  {| ip := ip_address;
     url := "http://" ++ ip_address ++ "/status";
     data := [];
     last_measurement := None;
     intervals := [];
     last_change_idx := None;
     running := true;
     sampling_period := 1;
     csv_file := "shelly_power_" ++ stamp ++ ".csv";
     plot_file := "shelly_power_" ++ stamp ++ ".png";
     analysis_file := "shelly_analysis_" ++ stamp ++ ".txt" |}.

(** ** Change detection *)

(** The test [self.last_measurement != power] of the second [if]; it is only
    evaluated once a measurement is stored. *)
Definition value_changed (self : ShellyMonitor) (power : Q) : bool :=
  match last_measurement self with
  | None => false
  | Some m => negb (Qeq_bool m power)
  end.

Definition check_value_change (self : ShellyMonitor) (power : Q)
    (current_idx : Z) : ShellyMonitor :=
  match last_measurement self with
  | None =>
      set_last_change_idx (set_last_measurement self (Some power))
        (Some current_idx)
  | Some m =>
      if negb (Qeq_bool m power) then
        let self1 :=
          match last_change_idx self with
          | Some last =>
              let interval_samples := current_idx - last in
              set_intervals self (intervals self ++ [interval_samples])
          | None => self
          end in
        set_last_change_idx (set_last_measurement self1 (Some power))
          (Some current_idx)
      else self
  end.

(** ** Floating-point arithmetic *)

(** Nearest integer, ties to the even neighbour. *)
Definition round_half_even (q : Q) : Z :=
  let d := Zpos (Qden q) in
  let f := Qnum q / d in
  match (2 * (Qnum q mod d)) ?= d with
  | Lt => f
  | Gt => f + 1
  | Eq => if Z.even f then f else f + 1
  end.

(** The exponent [e] with [2^e <= n/d < 2^(e+1)], for [n > 0]. *)
Definition floor_log2 (n : Z) (d : positive) : Z :=
  let e0 := Z.log2 n - Z.log2 (Zpos d) in
  let reached :=
    if 0 <=? e0 then 2 ^ e0 * Zpos d <=? n else Zpos d <=? n * 2 ^ (- e0) in
  if reached then e0 else e0 - 1.

(** [n/d > 0] rounded to 53 significant bits, the exponent not below that
    of the subnormal numbers. *)
Definition binary64_pos (n : Z) (d : positive) : Q :=
  let e := Z.max (floor_log2 n d) (-1022) in
  let k := 52 - e in
  if 0 <=? k
  then Qmake (round_half_even (Qmake (n * 2 ^ k) d)) (Z.to_pos (2 ^ k))
  else inject_Z
         (round_half_even (Qmake n (d * Z.to_pos (2 ^ (- k)))) * 2 ^ (- k)).

(** The binary64 number nearest to [q]. *)
Definition binary64 (q : Q) : Q :=
  match Qnum q with
  | Z0 => 0%Q
  | Zpos _ => binary64_pos (Qnum q) (Qden q)
  | Zneg _ => Qopp (binary64_pos (- Qnum q) (Qden q))
  end.

(** [float(z)], as applied when an integer meets a float. *)
Definition of_int (z : Z) : Q := binary64 (inject_Z z).

(** [a * b] and [a - b] on floats, [a / b] on integers. *)
Definition fmul (a b : Q) : Q := binary64 (a * b).
Definition fsub (a b : Q) : Q := binary64 (a - b).
Definition truediv (a b : Z) : Q := binary64 (inject_Z a / inject_Z b).


(** ** The outside world and the effects *)

(** One iteration of the loop as the environment decides it. *)
Record Tick : Type := mkTick {
  t_start : Q;           (* time.time() at the top of the iteration *)
  poll : option Q;       (* get_power(): a number, or None after an error *)
  stamp : Q;             (* datetime.now(), read on success *)
  t_end : Q;             (* time.time() after the bookkeeping *)
  sigint : bool          (* SIGINT delivered during this iteration *)
}.

Inductive Effect : Type :=
| Print (text : string)
| PollError                                   (* "Error reading power: ..." *)
| Progress (power stamp : Q) (samples : nat)  (* the "\rPower: ..." line *)
| Sleep (seconds : Q)
| ToCsv (file : string) (rows : list Reading)
| SavePlot (file : string) (rows : list Reading)
| WriteFile (file content : string).

Definition handle_exit (self : ShellyMonitor) : ShellyMonitor * list Effect :=
  (set_running self false, [Print (String "010" "Stopping monitoring...")]).

(** Python's [max(0, x)]: the first argument is kept unless the second is
    strictly greater. *)
Definition py_max0 (x : Q) : Q :=
  if Qlt_le_dec 0 x then x else 0%Q.

(** ** The polling loop *)

Record LoopState : Type := mkLoop {
  self_ : ShellyMonitor;
  current_idx : Z;
  out : list Effect
}.

Definition sleep_time (self : ShellyMonitor) (t : Tick) : Q :=
  let elapsed := fsub (t_end t) (t_start t) in
  py_max0 (fsub (sampling_period self) elapsed).

(** The body of [while self.running].  The handler of a signal that arrives
    during the iteration has run by the time the loop tests [self.running]
    again; where exactly its line appears among the iteration's output is
    not represented. *)
Definition loop_body (t : Tick) (st : LoopState) : LoopState :=
  let st1 :=
    match poll t with
    | Some power =>
        let self1 := set_data (self_ st) (data (self_ st) ++ [(stamp t, power)]) in
        let self2 := check_value_change self1 power (current_idx st) in
        mkLoop self2 (current_idx st + 1)
          (out st ++ [Progress power (stamp t) (List.length (data self2))])
    | None => mkLoop (self_ st) (current_idx st) (out st ++ [PollError])
    end in
  let st2 :=
    mkLoop (self_ st1) (current_idx st1)
      (out st1 ++ [Sleep (sleep_time (self_ st1) t)]) in
  if sigint t then
    let (self3, shown) := handle_exit (self_ st2) in
    mkLoop self3 (current_idx st2) (out st2 ++ shown)
  else st2.

Fixpoint monitor_loop (ticks : list Tick) (st : LoopState) : LoopState :=
  match ticks with
  | [] => st
  | t :: rest =>
      if running (self_ st) then monitor_loop rest (loop_body t st) else st
  end.

(** The state on entry to the loop: the two banner lines are printed and
    [current_idx = 0]. *)
Definition start (self : ShellyMonitor) : LoopState :=
  mkLoop self 0
    [Print ("Monitoring Shelly Plug S at " ++ ip self);
     Print "Press CTRL+C to stop..."].

Definition monitor (self : ShellyMonitor) (ticks : list Tick) : LoopState :=
  monitor_loop ticks (start self).

(** ** Rendering numbers

    [str_int] is [str] on an integer, as the f-strings apply it to
    [len(...)], [min_samples] and [max_samples]. *)
Definition str_int (z : Z) : string :=
  NilZero.string_of_int (Z.to_int z).

(** The format [:.1f]: sign, integer part, one decimal digit, the exact
    value rounded to the nearest tenth, ties to even. *)
Definition fmt_1f (q : Q) : string :=
  let tenths := round_half_even (Qabs q * 10) in
  ((if Qlt_le_dec q 0 then "-" else "")
   ++ str_int (tenths / 10) ++ "." ++ str_int (tenths mod 10))%string.

(** ** The analysis *)

Definition nl : string := String "010" "".

Definition py_sum (l : list Z) : Z := fold_left Z.add l 0.

(** [min] and [max] of a list known to start with [x]. *)
Definition py_min (x : Z) (rest : list Z) : Z := fold_left Z.min rest x.
Definition py_max (x : Z) (rest : list Z) : Z := fold_left Z.max rest x.

(** [sum(intervals) / len(intervals)], Python's true division. *)
Definition average (l : list Z) : Q :=
  truediv (py_sum l) (Z.of_nat (List.length l)).

(** [l[:-1]] *)
Definition drop_last (l : list Z) : list Z := removelast l.

Definition statistics_lines (self : ShellyMonitor)
    (min_samples : Z) (avg_samples : Q) (max_samples : Z) : list string :=
  [ ("Total samples collected: "
       ++ str_int (Z.of_nat (List.length (data self))))%string;
    ("Number of value changes: "
       ++ str_int (Z.of_nat (List.length (intervals self))))%string;
    (nl ++ "Intervals between value changes:")%string;
    ("Minimum: " ++ str_int min_samples ++ " samples ("
       ++ fmt_1f (fmul (of_int min_samples) (sampling_period self))
       ++ " seconds)")%string;
    ("Average: " ++ fmt_1f avg_samples ++ " samples ("
       ++ fmt_1f (fmul avg_samples (sampling_period self))
       ++ " seconds)")%string;
    ("Maximum: " ++ str_int max_samples ++ " samples ("
       ++ fmt_1f (fmul (of_int max_samples) (sampling_period self))
       ++ " seconds)")%string ].

Definition recommendation_lines (self : ShellyMonitor) (min_samples : Z)
  : list string :=
  [ (nl ++ "You can safely increase the sampling interval to "
       ++ fmt_1f (fmul (sampling_period self) (of_int 2))
       ++ " seconds")%string;
    ("(minimum interval between changes was "
       ++ str_int min_samples ++ " samples)")%string ].

Definition not_enough_data : string := "Not enough data for analysis".
Definition not_enough_intervals : string := "Not enough intervals for analysis".

Definition analyze_intervals (self : ShellyMonitor) : string :=
  if (Z.of_nat (List.length (intervals self)) <? 2)%Z then not_enough_data
  else
    match drop_last (intervals self) with
    | [] => not_enough_intervals
    | x :: rest =>
        let min_samples := py_min x rest in
        let avg_samples := average (x :: rest) in
        let max_samples := py_max x rest in
        let analysis := statistics_lines self min_samples avg_samples max_samples in
        let analysis :=
          if (2 <=? min_samples)%Z
          then analysis ++ recommendation_lines self min_samples
          else analysis in
        String.concat nl analysis
    end.

(** ** Output generation *)

Definition save_and_plot (self : ShellyMonitor) : list Effect :=
  match data self with
  | [] => [Print "No data collected!"]
  | _ :: _ =>
      let analysis := analyze_intervals self in
      [ ToCsv (csv_file self) (data self);
        Print (nl ++ "Data saved to " ++ csv_file self);
        SavePlot (plot_file self) (data self);
        Print ("Plot saved to " ++ plot_file self);
        WriteFile (analysis_file self) analysis;
        Print ("Analysis saved to " ++ analysis_file self);
        Print (nl ++ "Analysis Summary:");
        Print analysis ]
  end.

(** [main]: everything the program does for one trace of the world. *)
Definition main (ip_address stamp0 : string) (ticks : list Tick)
  : list Effect :=
  let st := monitor (init ip_address stamp0) ticks in
  out st ++ save_and_plot (self_ st).

(** A trace in which every poll succeeds with the given power values. *)
Definition ticks_of_powers (ps : list Q) : list Tick :=
  map (fun p => mkTick 0 (Some p) 0 0 false) ps.

Definition example_powers : list Q :=
  [5; 5; 5; 7; 7; 7; 7; 3; 3; 9; 9; 9; 9; 9]%Q.

(** The sample indices at which a run takes the branch
    [if self.last_measurement != power] of [check_value_change]. *)
Fixpoint change_indices (ticks : list Tick) (st : LoopState) : list Z :=
  match ticks with
  | [] => []
  | t :: rest =>
      if running (self_ st) then
        match poll t with
        | Some power =>
            if value_changed (self_ st) power then [current_idx st] else []
        | None => []
        end ++ change_indices rest (loop_body t st)
      else []
  end.

(** * Properties *)

(** ** Rounding *)

Lemma round_half_even_floor q : Qnum q / Zpos (Qden q) <= round_half_even q.
Proof.
  unfold round_half_even.
  destruct (2 * (Qnum q mod Zpos (Qden q)) ?= Zpos (Qden q));
    [destruct (Z.even _)|..]; lia.
Qed.

Lemma round_half_even_lower z n d :
  z * Zpos d <= n -> z <= round_half_even (n # d).
Proof.
  intros H. etransitivity; [|apply round_half_even_floor]. simpl.
  apply Z.div_le_lower_bound; lia.
Qed.

Lemma floor_log2_reached n d :
  0 < n -> 0 <= floor_log2 n d -> 2 ^ floor_log2 n d * Zpos d <= n.
Proof.
  intros Hn. unfold floor_log2.
  set (e0 := Z.log2 n - Z.log2 (Zpos d)).
  destruct (Z.leb_spec 0 e0) as [He0|He0].
  - destruct (Z.leb_spec (2 ^ e0 * Zpos d) n) as [Hr|Hr]; [intros _; exact Hr|].
    intros Hfl.
    destruct (Z.log2_spec n Hn) as [Hn1 _].
    destruct (Z.log2_spec (Zpos d) (Pos2Z.is_pos d)) as [_ Hd2].
    pose proof (Z.log2_nonneg (Zpos d)) as Hld.
    assert (Hpow : 2 ^ (e0 - 1) * 2 ^ Z.succ (Z.log2 (Zpos d)) = 2 ^ Z.log2 n).
    { rewrite <- Z.pow_add_r by lia. f_equal. unfold e0. lia. }
    assert (Hp : 0 < 2 ^ (e0 - 1)) by (apply Z.pow_pos_nonneg; lia).
    nia.
  - destruct (Zpos d <=? n * 2 ^ (- e0)); lia.
Qed.

Lemma binary64_pos_lower n d : Zpos d <= n -> (1 <= binary64_pos n d)%Q.
Proof.
  intros Hn. unfold binary64_pos.
  set (fl := floor_log2 n d). set (k := 52 - Z.max fl (-1022)).
  destruct (Z.leb_spec 0 k) as [Hk|Hk].
  - assert (Hp : 0 < 2 ^ k) by (apply Z.pow_pos_nonneg; lia).
    unfold Qle. simpl. rewrite Z2Pos.id by assumption.
    assert (2 ^ k <= round_half_even (n * 2 ^ k # d))
      by (apply round_half_even_lower; nia).
    lia.
  - assert (Hfl : 52 < fl) by lia.
    assert (Hk' : - k = fl - 52) by lia. rewrite Hk'.
    assert (Hp : 0 < 2 ^ (fl - 52)) by (apply Z.pow_pos_nonneg; lia).
    assert (Hle : 2 ^ (fl - 52) <= 2 ^ fl) by (apply Z.pow_le_mono_r; lia).
    assert (Hr : 2 ^ fl * Zpos d <= n)
      by (apply floor_log2_reached; [pose proof (Pos2Z.is_pos d) |]; lia).
    assert (1 <= round_half_even (n # d * Z.to_pos (2 ^ (fl - 52)))).
    { apply round_half_even_lower.
      rewrite Pos2Z.inj_mul, Z2Pos.id by assumption.
      pose proof (Pos2Z.is_pos d). nia. }
    change 1%Q with (inject_Z 1). rewrite <- Zle_Qle. nia.
Qed.

Lemma binary64_pos_nonneg n d : 0 <= n -> (0 <= binary64_pos n d)%Q.
Proof.
  intros Hn. unfold binary64_pos.
  set (k := 52 - Z.max (floor_log2 n d) (-1022)).
  destruct (Z.leb_spec 0 k) as [Hk|Hk]; unfold Qle; simpl.
  - assert (0 <= round_half_even (n * 2 ^ k # d)).
    { apply round_half_even_lower. assert (0 <= 2 ^ k) by (apply Z.pow_nonneg; lia).
      nia. }
    lia.
  - assert (0 <= round_half_even (n # d * Z.to_pos (2 ^ (- k))))
      by (apply round_half_even_lower; lia).
    assert (0 <= 2 ^ (- k)) by (apply Z.pow_nonneg; lia).
    nia.
Qed.

Lemma binary64_lower q : (1 <= q)%Q -> (1 <= binary64 q)%Q.
Proof.
  intros H. unfold Qle in H. simpl in H. unfold binary64.
  pose proof (Pos2Z.is_pos (Qden q)).
  destruct (Qnum q) as [|n|n] eqn:E; try lia.
  apply binary64_pos_lower. lia.
Qed.

Lemma binary64_nonneg q : (0 <= q)%Q -> (0 <= binary64 q)%Q.
Proof.
  intros H. unfold Qle in H. simpl in H. unfold binary64.
  destruct (Qnum q) as [|n|n] eqn:E; try lia.
  - apply Qle_refl.
  - apply binary64_pos_nonneg. lia.
Qed.


(** *** The rounding error *)









(** ** Basic facts about one call and one iteration *)

(** The three paths through [check_value_change]. *)
Ltac change_paths :=
  unfold check_value_change;
  destruct (last_measurement _); [|reflexivity];
  destruct (negb _); [|reflexivity];
  destruct (last_change_idx _); reflexivity.

Lemma check_value_change_data self p i :
  data (check_value_change self p i) = data self.
Proof. change_paths. Qed.

Lemma check_value_change_period self p i :
  sampling_period (check_value_change self p i) = sampling_period self.
Proof. change_paths. Qed.

Lemma check_value_change_running self p i :
  running (check_value_change self p i) = running self.
Proof. change_paths. Qed.

Lemma loop_body_period t st :
  sampling_period (self_ (loop_body t st)) = sampling_period (self_ st).
Proof.
  unfold loop_body.
  destruct (poll t), (sigint t); simpl;
    rewrite ?check_value_change_period; reflexivity.
Qed.

Lemma monitor_loop_period ticks : forall st,
  sampling_period (self_ (monitor_loop ticks st)) = sampling_period (self_ st).
Proof.
  induction ticks as [|t rest IH]; intros st; simpl; [reflexivity|].
  destruct (running (self_ st)); [|reflexivity].
  rewrite IH. apply loop_body_period.
Qed.

Lemma monitor_loop_stopped ticks st :
  running (self_ st) = false -> monitor_loop ticks st = st.
Proof. intros H. destruct ticks; simpl; [|rewrite H]; reflexivity. Qed.

(** ** The index invariant of the loop *)

(** Every recorded gap is positive, and the stored change index lies
    strictly below the index the next reading will get. *)
Definition idx_inv (st : LoopState) : Prop :=
  Forall (fun g => 1 <= g) (intervals (self_ st)) /\
  forall last, last_change_idx (self_ st) = Some last -> last < current_idx st.

Lemma idx_inv_start self :
  intervals self = [] -> last_change_idx self = None -> idx_inv (start self).
Proof.
  intros Hi Hl. split; simpl.
  - rewrite Hi. constructor.
  - rewrite Hl. discriminate.
Qed.

Lemma loop_body_idx_inv t st : idx_inv st -> idx_inv (loop_body t st).
Proof.
  intros [Hpos Hlast]. unfold loop_body, idx_inv.
  destruct (poll t) as [power|]; destruct (sigint t); simpl;
    try (split; assumption).
  all: unfold check_value_change; simpl.
  all: destruct (last_measurement (self_ st)) as [m|]; simpl.
  all: try (split; [assumption | intros last [= <-]; lia]).
  all: destruct (negb (Qeq_bool m power)); simpl.
  all: try (split; [assumption | intros last Hl; specialize (Hlast _ Hl); lia]).
  all: destruct (last_change_idx (self_ st)) as [lc|] eqn:Hlc; simpl.
  all: split; try (intros last [= <-]; lia); try assumption.
  all: apply Forall_app; split; [assumption|].
  all: constructor; [specialize (Hlast _ eq_refl); lia | constructor].
Qed.

Lemma monitor_loop_idx_inv ticks : forall st,
  idx_inv st -> idx_inv (monitor_loop ticks st).
Proof.
  induction ticks as [|t rest IH]; intros st H; simpl; [assumption|].
  destruct (running (self_ st)); [|assumption].
  apply IH, loop_body_idx_inv, H.
Qed.

(** ** Minimum, maximum, sum and average of a list of gaps *)

Lemma py_min_lower c : forall rest x,
  c <= x -> Forall (fun g => c <= g) rest -> c <= py_min x rest.
Proof.
  unfold py_min. induction rest as [|y rest IH]; intros x Hx Hr; simpl.
  - assumption.
  - inversion Hr; subst. apply IH; [lia | assumption].
Qed.

Lemma py_max_lower c : forall rest x, c <= x -> c <= py_max x rest.
Proof.
  unfold py_max. induction rest as [|y rest IH]; intros x Hx; simpl.
  - assumption.
  - apply IH. lia.
Qed.

Lemma py_min_le_head : forall rest x, py_min x rest <= x.
Proof.
  unfold py_min. induction rest as [|y rest IH]; intros x; simpl; [lia|].
  specialize (IH (Z.min x y)). lia.
Qed.

Lemma py_min_le_all : forall rest x g, In g (x :: rest) -> py_min x rest <= g.
Proof.
  unfold py_min. induction rest as [|y rest IH]; intros x g [<-|Hin]; simpl.
  - lia.
  - destruct Hin.
  - pose proof (py_min_le_head rest (Z.min x y)) as H. unfold py_min in H. lia.
  - destruct Hin as [<-|Hin].
    + pose proof (py_min_le_head rest (Z.min x y)) as H. unfold py_min in H. lia.
    + apply IH. right. assumption.
Qed.

Lemma py_min_in : forall rest x, In (py_min x rest) (x :: rest).
Proof.
  unfold py_min. induction rest as [|y rest IH]; intros x; simpl.
  - left. reflexivity.
  - destruct (IH (Z.min x y)) as [H|H].
    + rewrite <- H. destruct (Z.min_spec x y) as [[_ ->]|[_ ->]]; auto.
    + right. right. assumption.
Qed.

Lemma fold_add_shift : forall l a, fold_left Z.add l a = a + fold_left Z.add l 0.
Proof.
  induction l as [|y l IH]; intros a; simpl; [lia|].
  rewrite (IH (a + y)), (IH y). lia.
Qed.

Lemma py_sum_cons x l : py_sum (x :: l) = x + py_sum l.
Proof. unfold py_sum. simpl. apply fold_add_shift. Qed.

Lemma py_sum_lower l :
  Forall (fun g => 1 <= g) l -> Z.of_nat (List.length l) <= py_sum l.
Proof.
  induction 1 as [|g l Hg _ IH].
  - unfold py_sum. simpl. lia.
  - rewrite py_sum_cons. simpl List.length. lia.
Qed.

Lemma average_lower l :
  l <> [] -> Forall (fun g => 1 <= g) l -> (1 <= average l)%Q.
Proof.
  intros Hne Hpos. unfold average, truediv. apply binary64_lower.
  assert (Hlen : 0 < Z.of_nat (List.length l)).
  { destruct l; [congruence | simpl; lia]. }
  apply Qle_shift_div_l.
  - replace 0%Q with (inject_Z 0) by reflexivity. rewrite <- Zlt_Qlt. assumption.
  - rewrite Qmult_1_l. rewrite <- Zle_Qle. apply py_sum_lower, Hpos.
Qed.

Lemma Forall_removelast {A} (P : A -> Prop) : forall l,
  Forall P l -> Forall P (removelast l).
Proof.
  induction 1 as [|x l Hx Hl IH]; simpl; [constructor|].
  destruct l; [constructor|]. constructor; assumption.
Qed.

(** ** C10: recorded gaps are positive *)

Lemma of_int_lower z : 1 <= z -> (1 <= of_int z)%Q.
Proof.
  intros H. apply binary64_lower. change 1%Q with (inject_Z 1).
  rewrite <- Zle_Qle. assumption.
Qed.

Lemma fmul_positive (q period : Q) :
  period == 1 -> (1 <= q)%Q -> (0 < fmul q period)%Q.
Proof.
  intros Hp Hq. apply Qlt_le_trans with 1%Q; [reflexivity|].
  apply binary64_lower. rewrite Hp, Qmult_1_r. assumption.
Qed.

(** C10.  After any run of the monitor, every gap stored in [intervals] is
    at least one sample; hence the minimum, the average and the maximum the
    analysis computes over the interior gaps are at least 1, and the three
    durations it prints (count times sampling period) are positive. *)
Theorem gaps_are_positive (ip_address stamp0 : string) (ticks : list Tick) :
  let self := self_ (monitor (init ip_address stamp0) ticks) in
  Forall (fun g => 1 <= g) (intervals self) /\
  forall x rest, drop_last (intervals self) = x :: rest ->
    1 <= py_min x rest /\
    (1 <= average (x :: rest))%Q /\
    1 <= py_max x rest /\
    (0 < fmul (of_int (py_min x rest)) (sampling_period self))%Q /\
    (0 < fmul (average (x :: rest)) (sampling_period self))%Q /\
    (0 < fmul (of_int (py_max x rest)) (sampling_period self))%Q.
Proof.
  intros self.
  assert (Hinv : idx_inv (monitor (init ip_address stamp0) ticks)).
  { apply monitor_loop_idx_inv, idx_inv_start; reflexivity. }
  destruct Hinv as [Hpos _]. fold self in Hpos.
  split; [assumption|].
  intros x rest Hdrop.
  assert (Hint : Forall (fun g => 1 <= g) (x :: rest)).
  { rewrite <- Hdrop. apply Forall_removelast, Hpos. }
  assert (Hper : sampling_period self == 1).
  { unfold self, monitor. rewrite monitor_loop_period. reflexivity. }
  inversion Hint as [|? ? Hx Hrest]; subst.
  assert (Hmin : 1 <= py_min x rest) by (apply py_min_lower; assumption).
  assert (Hmax : 1 <= py_max x rest) by (apply py_max_lower; assumption).
  assert (Havg : (1 <= average (x :: rest))%Q)
    by (apply average_lower; [discriminate | assumption]).
  repeat split; try assumption; apply fmul_positive;
    try assumption; apply of_int_lower; assumption.
Qed.

(** ** C1: the gap before the first change *)

(** Once a measurement is stored, a change index is stored too: the test
    [self.last_change_idx is not None] of [check_value_change] never fails. *)
Definition stored_together (self : ShellyMonitor) : Prop :=
  last_measurement self <> None -> last_change_idx self <> None.

Lemma check_value_change_stored self p i :
  stored_together self -> stored_together (check_value_change self p i).
Proof.
  unfold stored_together, check_value_change. intros H.
  destruct (last_measurement self) as [m|] eqn:Hm; simpl; [|discriminate].
  destruct (negb (Qeq_bool m p)); simpl.
  - destruct (last_change_idx self); simpl; discriminate.
  - rewrite Hm. assumption.
Qed.

Lemma monitor_loop_stored ticks : forall st,
  stored_together (self_ st) -> stored_together (self_ (monitor_loop ticks st)).
Proof.
  induction ticks as [|t rest IH]; intros st H; simpl; [assumption|].
  destruct (running (self_ st)); [|assumption].
  apply IH. unfold loop_body.
  destruct (poll t), (sigint t); simpl; try assumption;
    apply check_value_change_stored; assumption.
Qed.

Lemma monitor_loop_app a : forall b st,
  monitor_loop (a ++ b) st = monitor_loop b (monitor_loop a st).
Proof.
  induction a as [|t a IH]; intros b st; simpl; [reflexivity|].
  destruct (running (self_ st)) eqn:Hrun; [apply IH|].
  rewrite monitor_loop_stopped by assumption. reflexivity.
Qed.

(** A stretch of [n] readings equal to the stored measurement only moves
    the index. *)
Lemma constant_stretch p n : forall st,
  running (self_ st) = true ->
  last_measurement (self_ st) = Some p ->
  let st' := monitor_loop (ticks_of_powers (repeat p n)) st in
  running (self_ st') = true /\
  last_measurement (self_ st') = Some p /\
  last_change_idx (self_ st') = last_change_idx (self_ st) /\
  intervals (self_ st') = intervals (self_ st) /\
  current_idx st' = current_idx st + Z.of_nat n.
Proof.
  induction n as [|n IH]; intros st Hrun Hm.
  - simpl. repeat split; try assumption. lia.
  - cbn [repeat ticks_of_powers map monitor_loop]. rewrite Hrun.
    set (st1 := loop_body (mkTick 0 (Some p) 0 0 false) st).
    assert (H1 : running (self_ st1) = true /\
                 last_measurement (self_ st1) = Some p /\
                 last_change_idx (self_ st1) = last_change_idx (self_ st) /\
                 intervals (self_ st1) = intervals (self_ st) /\
                 current_idx st1 = current_idx st + 1).
    { unfold st1, loop_body, check_value_change. simpl.
      rewrite Hm, Qeq_bool_refl. simpl. repeat split; assumption. }
    destruct H1 as [Hr1 [Hm1 [Hc1 [Hi1 Hx1]]]].
    destruct (IH st1 Hr1 Hm1) as [Hr [Hm' [Hc [Hi Hx]]]].
    fold (ticks_of_powers (repeat p n)).
    repeat split; try assumption; try congruence. lia.
Qed.

Lemma first_change_gap ip_address stamp0 p q n :
  Qeq_bool p q = false ->
  intervals (self_ (monitor (init ip_address stamp0)
                      (ticks_of_powers (p :: repeat p n ++ [q]))))
  = [Z.of_nat n + 1].
Proof.
  intros Hpq. unfold monitor.
  cbn [ticks_of_powers map monitor_loop start self_ running init].
  set (st1 := loop_body _ _).
  unfold ticks_of_powers. rewrite map_app, monitor_loop_app.
  destruct (constant_stretch p n st1) as [Hr [Hm [Hc [Hi Hx]]]];
    [reflexivity | reflexivity |].
  unfold ticks_of_powers in Hr, Hm, Hc, Hi, Hx.
  set (st2 := monitor_loop _ st1) in *.
  cbn [map monitor_loop]. rewrite Hr.
  unfold loop_body, check_value_change. cbn -[Z.add Z.sub].
  rewrite Hm, Hpq. cbn -[Z.add Z.sub]. rewrite Hc, Hi, Hx.
  unfold st1. cbn -[Z.add Z.sub Z.of_nat]. f_equal. lia.
Qed.

(** C1.  On the power sequence 5,5,5,7,7,7,7,3,3,9,9,9,9,9 the changes are
    found at the indices 3, 7 and 9, but the recorded gaps are 3, 4, 2: the
    first one is the distance from sample 0 to the first change.  In every
    run the guard meant to skip it is passed, and whenever the first change
    comes at index [n + 1] the gap [n + 1] is recorded for it. *)
Theorem leading_gap_is_recorded (ip_address stamp0 : string) :
  let st := start (init ip_address stamp0) in
  let ticks := ticks_of_powers example_powers in
  change_indices ticks st = [3; 7; 9] /\
  intervals (self_ (monitor_loop ticks st)) = [3; 4; 2] /\
  intervals (self_ (monitor_loop ticks st)) <> [4; 2] /\
  (forall any_ticks,
     stored_together (self_ (monitor (init ip_address stamp0) any_ticks))) /\
  (forall p q n, Qeq_bool p q = false ->
     intervals (self_ (monitor (init ip_address stamp0)
                         (ticks_of_powers (p :: repeat p n ++ [q]))))
     = [Z.of_nat n + 1]).
Proof.
  intros st ticks.
  split; [reflexivity|]. split; [reflexivity|]. split; [discriminate|].
  split.
  - intros any_ticks. apply monitor_loop_stored. intros H. contradiction H.
    reflexivity.
  - intros p q n. apply first_change_gap.
Qed.

(** ** C4: a constant signal *)

(** No gap recorded so far, and the stored measurement, if any, equals [p]. *)
Definition steady (p : Q) (self : ShellyMonitor) : Prop :=
  intervals self = [] /\
  forall m, last_measurement self = Some m -> m == p.

Definition polls_equal (p : Q) (ticks : list Tick) : Prop :=
  forall t q, In t ticks -> poll t = Some q -> q == p.

Section ConstantPower.

Variable p : Q.

Lemma steady_unchanged self q : steady p self -> q == p ->
  value_changed self q = false.
Proof.
  intros [_ Hm] Hq. unfold value_changed.
  destruct (last_measurement self) as [m|]; [|reflexivity].
  apply negb_false_iff, Qeq_bool_iff. rewrite Hq. apply Hm. reflexivity.
Qed.

Lemma check_value_change_steady self q i : steady p self -> q == p ->
  steady p (check_value_change self q i).
Proof.
  intros Hs Hq. pose proof (steady_unchanged _ _ Hs Hq) as Hv.
  unfold value_changed in Hv. unfold check_value_change.
  destruct Hs as [Hi Hm].
  destruct (last_measurement self) as [m|] eqn:E.
  - rewrite Hv. split; [assumption|]. rewrite E. assumption.
  - split; simpl; [assumption|]. intros m [= <-]. assumption.
Qed.

Lemma loop_body_steady t st :
  (forall q, poll t = Some q -> q == p) ->
  steady p (self_ st) -> steady p (self_ (loop_body t st)).
Proof.
  intros Hq Hs. unfold loop_body.
  destruct (poll t) as [q|]; destruct (sigint t); simpl; try assumption.
  all: apply check_value_change_steady; [|apply Hq; reflexivity].
  all: destruct Hs as [Hi Hm]; split; assumption.
Qed.

Lemma constant_run ticks : forall st,
  polls_equal p ticks -> steady p (self_ st) ->
  change_indices ticks st = [] /\ steady p (self_ (monitor_loop ticks st)).
Proof.
  induction ticks as [|t rest IH]; intros st Hall Hs; simpl.
  - split; [reflexivity | assumption].
  - destruct (running (self_ st)); [|split; [reflexivity | assumption]].
    assert (Ht : forall q, poll t = Some q -> q == p)
      by (intros q; apply Hall; left; reflexivity).
    destruct (IH (loop_body t st)) as [Hc Hs'].
    + intros t' q Hin. apply Hall. right. assumption.
    + apply loop_body_steady; assumption.
    + split; [|assumption]. rewrite Hc, app_nil_r.
      destruct (poll t) as [q|]; [|reflexivity].
      rewrite steady_unchanged; auto.
Qed.

End ConstantPower.

Lemma no_intervals_no_analysis self :
  intervals self = [] -> analyze_intervals self = not_enough_data.
Proof. intros H. unfold analyze_intervals. rewrite H. reflexivity. Qed.

(** C4.  If every successful poll of a session returns the same power, no
    change is detected, no gap is recorded, and the analysis answers
    "Not enough data for analysis". *)
Theorem constant_power_no_changes (ip_address stamp0 : string) (p : Q)
    (ticks : list Tick) :
  polls_equal p ticks ->
  change_indices ticks (start (init ip_address stamp0)) = [] /\
  intervals (self_ (monitor (init ip_address stamp0) ticks)) = [] /\
  analyze_intervals (self_ (monitor (init ip_address stamp0) ticks))
    = not_enough_data.
Proof.
  intros Hall.
  destruct (constant_run p ticks (start (init ip_address stamp0)) Hall)
    as [Hc [Hi _]].
  { split; [reflexivity | discriminate]. }
  split; [assumption|]. split; [assumption|].
  apply no_intervals_no_analysis. assumption.
Qed.

Definition constant_trace : list Tick :=
  [ mkTick 0 (Some 5%Q) 0 (1 # 10) false;
    mkTick 1 None 1 3 false;
    mkTick 4 (Some (10 # 2)) 4 (41 # 10) false;
    mkTick 5 (Some 5%Q) 5 (51 # 10) true ].

Lemma constant_power_no_changes_witness :
  polls_equal 5 constant_trace /\
  change_indices constant_trace (start (init "192.168.1.50" "20240101_120000")) = [] /\
  intervals (self_ (monitor (init "192.168.1.50" "20240101_120000") constant_trace)) = [] /\
  analyze_intervals (self_ (monitor (init "192.168.1.50" "20240101_120000") constant_trace))
    = not_enough_data.
Proof.
  assert (H : polls_equal 5 constant_trace).
  { intros t q Hin Hp. simpl in Hin.
    destruct Hin as [<-|[<-|[<-|[<-|[]]]]]; simpl in Hp;
      try discriminate; injection Hp as <-; reflexivity. }
  split; [exact H|].
  exact (constant_power_no_changes "192.168.1.50" "20240101_120000" 5
           constant_trace H).
Defined.

(** ** C5: failed polls do not consume a sample index *)

Definition succeeded (t : Tick) : bool :=
  match poll t with Some _ => true | None => false end.

(** The iterations a running loop enters: all ticks up to and including the
    first one during which the signal arrives. *)
Fixpoint executed (ticks : list Tick) : list Tick :=
  match ticks with
  | [] => []
  | t :: rest => t :: (if sigint t then [] else executed rest)
  end.

(** What change and gap detection works on. *)
Record LogView : Type := mkView {
  v_data : list Reading;
  v_last_measurement : option Q;
  v_intervals : list Z;
  v_last_change_idx : option Z;
  v_current_idx : Z
}.

Definition log_view (st : LoopState) : LogView :=
  mkView (data (self_ st)) (last_measurement (self_ st))
    (intervals (self_ st)) (last_change_idx (self_ st)) (current_idx st).

Lemma loop_body_failed t st : poll t = None ->
  log_view (loop_body t st) = log_view st.
Proof.
  intros H. unfold loop_body. rewrite H. destruct (sigint t); reflexivity.
Qed.

Lemma loop_body_failed_quiet t st : poll t = None -> sigint t = false ->
  self_ (loop_body t st) = self_ st /\
  current_idx (loop_body t st) = current_idx st.
Proof.
  intros H Hs. unfold loop_body. rewrite H, Hs. split; reflexivity.
Qed.

Lemma loop_body_running t st :
  running (self_ (loop_body t st))
  = if sigint t then false else running (self_ st).
Proof.
  unfold loop_body. destruct (poll t), (sigint t); simpl;
    rewrite ?check_value_change_running; reflexivity.
Qed.

Lemma loop_body_out_irrelevant t st st' :
  self_ st = self_ st' -> current_idx st = current_idx st' ->
  self_ (loop_body t st) = self_ (loop_body t st') /\
  current_idx (loop_body t st) = current_idx (loop_body t st').
Proof.
  intros Hs Hi. unfold loop_body.
  destruct (poll t), (sigint t); simpl; rewrite Hs, Hi; split; reflexivity.
Qed.

Lemma monitor_loop_out_irrelevant ticks : forall st st',
  self_ st = self_ st' -> current_idx st = current_idx st' ->
  log_view (monitor_loop ticks st) = log_view (monitor_loop ticks st') /\
  change_indices ticks st = change_indices ticks st'.
Proof.
  induction ticks as [|t rest IH]; intros st st' Hs Hi; simpl.
  - unfold log_view. rewrite Hs, Hi. split; reflexivity.
  - rewrite <- Hs. destruct (running (self_ st)).
    + destruct (loop_body_out_irrelevant t st st' Hs Hi) as [Hs' Hi'].
      destruct (IH _ _ Hs' Hi') as [Hv Hc].
      rewrite Hv, Hc, <- Hi. split; reflexivity.
    + unfold log_view. rewrite <- Hs, Hi. split; reflexivity.
Qed.

Lemma change_indices_stopped ticks st :
  running (self_ st) = false -> change_indices ticks st = [].
Proof. intros H. destruct ticks; simpl; [|rewrite H]; reflexivity. Qed.

Lemma failures_are_skipped ticks : forall st,
  log_view (monitor_loop ticks st)
    = log_view (monitor_loop (filter succeeded (executed ticks)) st) /\
  change_indices ticks st
    = change_indices (filter succeeded (executed ticks)) st.
Proof.
  induction ticks as [|t rest IH]; intros st; [split; reflexivity|].
  destruct (running (self_ st)) eqn:Hrun.
  2:{ rewrite !monitor_loop_stopped, !change_indices_stopped by assumption.
      split; reflexivity. }
  pose proof (loop_body_running t st) as Hrun'.
  destruct (poll t) as [p|] eqn:Hp.
  - assert (Hs : succeeded t = true) by (unfold succeeded; rewrite Hp; reflexivity).
    cbn [executed filter]. rewrite Hs.
    cbn [monitor_loop change_indices]. rewrite Hrun, Hp.
    destruct (sigint t) eqn:Hsig.
    + rewrite !monitor_loop_stopped, !change_indices_stopped by assumption.
      split; reflexivity.
    + destruct (IH (loop_body t st)) as [Hv Hc]. rewrite Hv, Hc.
      split; reflexivity.
  - assert (Hs : succeeded t = false) by (unfold succeeded; rewrite Hp; reflexivity).
    cbn [executed filter]. rewrite Hs.
    cbn [monitor_loop change_indices]. rewrite Hrun, Hp.
    destruct (sigint t) eqn:Hsig.
    + rewrite monitor_loop_stopped, change_indices_stopped by assumption.
      split; [apply loop_body_failed, Hp | reflexivity].
    + destruct (loop_body_failed_quiet t st Hp Hsig) as [Hs1 Hi].
      destruct (monitor_loop_out_irrelevant rest _ _ Hs1 Hi) as [Hv Hc].
      rewrite Hv, Hc. apply IH.
Qed.

Lemma index_is_log_length ticks : forall st,
  current_idx st = Z.of_nat (List.length (data (self_ st))) ->
  current_idx (monitor_loop ticks st)
    = Z.of_nat (List.length (data (self_ (monitor_loop ticks st)))).
Proof.
  induction ticks as [|t rest IH]; intros st H; simpl; [assumption|].
  destruct (running (self_ st)); [|assumption].
  apply IH. unfold loop_body.
  destruct (poll t), (sigint t); simpl; try assumption.
  all: rewrite check_value_change_data; simpl.
  all: rewrite length_app; simpl; lia.
Qed.

(** C5.  A failed poll leaves the reading log, the sample index and the
    change state as they were; the log, the gaps, the change indices and
    the final index of a run are those of the run over its successful
    iterations alone, and the index always equals the length of the log. *)
Theorem failed_polls_keep_indices :
  (forall t st, poll t = None -> log_view (loop_body t st) = log_view st) /\
  (forall self ticks,
     log_view (monitor self ticks)
       = log_view (monitor self (filter succeeded (executed ticks))) /\
     change_indices ticks (start self)
       = change_indices (filter succeeded (executed ticks)) (start self)) /\
  (forall ip_address stamp0 ticks,
     let st := monitor (init ip_address stamp0) ticks in
     current_idx st = Z.of_nat (List.length (data (self_ st)))).
Proof.
  split; [exact loop_body_failed|]. split.
  - intros self ticks. apply failures_are_skipped.
  - intros ip_address stamp0 ticks st. apply index_is_log_length. reflexivity.
Qed.

(** ** C6: a session without readings *)

Definition is_artifact (e : Effect) : bool :=
  match e with
  | ToCsv _ _ | SavePlot _ _ | WriteFile _ _ => true
  | _ => false
  end.

Definition all_failed (ticks : list Tick) : Prop :=
  forall t, In t ticks -> poll t = None.

(** The texts given to [print], in order. *)
Definition printed (effects : list Effect) : list string :=
  flat_map (fun e => match e with Print text => [text] | _ => [] end) effects.

Lemma loop_body_no_artifact t st :
  existsb is_artifact (out st) = false ->
  existsb is_artifact (out (loop_body t st)) = false.
Proof.
  intros H. unfold loop_body.
  destruct (poll t), (sigint t); simpl;
    rewrite !existsb_app, H; reflexivity.
Qed.

Lemma monitor_loop_no_artifact ticks : forall st,
  existsb is_artifact (out st) = false ->
  existsb is_artifact (out (monitor_loop ticks st)) = false.
Proof.
  induction ticks as [|t rest IH]; intros st H; simpl; [assumption|].
  destruct (running (self_ st)); [|assumption].
  apply IH, loop_body_no_artifact, H.
Qed.

Lemma all_failed_no_data ticks : forall st,
  all_failed ticks -> data (self_ (monitor_loop ticks st)) = data (self_ st).
Proof.
  induction ticks as [|t rest IH]; intros st H; simpl; [reflexivity|].
  destruct (running (self_ st)); [|reflexivity].
  rewrite IH by (intros t' Hin; apply H; right; assumption).
  change (v_data (log_view (loop_body t st)) = v_data (log_view st)).
  rewrite loop_body_failed; [reflexivity|]. apply H. left. reflexivity.
Qed.

(** C6.  With an empty reading log [save_and_plot] only prints
    "No data collected!".  A session in which every poll failed ends that
    way: the program's last output is the notice, and nothing it did wrote
    a CSV file, a plot or an analysis file. *)
Theorem no_data_no_artifacts (ip_address stamp0 : string) (ticks : list Tick) :
  all_failed ticks ->
  let self := self_ (monitor (init ip_address stamp0) ticks) in
  data self = [] /\
  save_and_plot self = [Print "No data collected!"] /\
  main ip_address stamp0 ticks
    = out (monitor (init ip_address stamp0) ticks)
        ++ [Print "No data collected!"] /\
  existsb is_artifact (main ip_address stamp0 ticks) = false.
Proof.
  intros Hall self.
  assert (Hdata : data self = []).
  { unfold self, monitor. rewrite all_failed_no_data by assumption.
    reflexivity. }
  assert (Hsave : save_and_plot self = [Print "No data collected!"]).
  { unfold save_and_plot. rewrite Hdata. reflexivity. }
  split; [assumption|]. split; [assumption|].
  unfold main. fold self. rewrite Hsave. split; [reflexivity|].
  rewrite existsb_app. unfold monitor.
  rewrite monitor_loop_no_artifact by reflexivity. reflexivity.
Qed.

Definition failing_trace : list Tick :=
  [ mkTick 0 None 0 2 false; mkTick 2 None 2 (5 # 2) true ].

Lemma no_data_no_artifacts_witness :
  all_failed failing_trace /\
  printed (main "10.0.0.7" "20240101_120000" failing_trace)
    = [ "Monitoring Shelly Plug S at 10.0.0.7";
        "Press CTRL+C to stop...";
        String "010" "Stopping monitoring...";
        "No data collected!" ]%string /\
  existsb is_artifact (main "10.0.0.7" "20240101_120000" failing_trace)
    = false.
Proof.
  assert (H : all_failed failing_trace).
  { intros t Hin. simpl in Hin. destruct Hin as [<-|[<-|[]]]; reflexivity. }
  split; [exact H|].
  destruct (no_data_no_artifacts "10.0.0.7" "20240101_120000"
              failing_trace H) as [_ [_ [Hmain Hnone]]].
  split; [|exact Hnone].
  rewrite Hmain. reflexivity.
Defined.

(** ** C7: the pause between two polls *)

Definition sleeps (effects : list Effect) : list Q :=
  flat_map (fun e => match e with Sleep d => [d] | _ => [] end) effects.

Lemma py_max0_spec x :
  py_max0 x == Qmax 0 x /\ (0 <= py_max0 x)%Q /\ ((x <= 0)%Q -> py_max0 x == 0).
Proof.
  unfold py_max0. destruct (Qlt_le_dec 0 x) as [Hlt|Hle].
  - split; [|split].
    + symmetry. apply Q.max_r. apply Qlt_le_weak. assumption.
    + apply Qlt_le_weak. assumption.
    + intros H. exfalso. apply (Qlt_irrefl 0).
      apply Qlt_le_trans with x; assumption.
  - split; [|split].
    + symmetry. apply Q.max_l. assumption.
    + apply Qle_refl.
    + intros _. reflexivity.
Qed.



(** ** The text of the analysis *)

Fixpoint has_char (c : ascii) (s : string) : bool :=
  match s with
  | EmptyString => false
  | String a rest => Ascii.eqb a c || has_char c rest
  end.

Fixpoint starts_with (needle hay : string) : bool :=
  match needle, hay with
  | EmptyString, _ => true
  | String _ _, EmptyString => false
  | String a n, String b h => Ascii.eqb a b && starts_with n h
  end.

(** [needle in hay] *)
Fixpoint occurs_in (needle hay : string) : bool :=
  starts_with needle hay ||
  match hay with
  | EmptyString => false
  | String _ rest => occurs_in needle rest
  end.

(** The sentence that opens the recommendation. *)
Definition recommendation_text : string :=
  "You can safely increase the sampling interval to ".

Lemma append_assoc : forall a b c : string,
  ((a ++ b) ++ c = a ++ (b ++ c))%string.
Proof.
  induction a as [|x a IH]; intros b c; simpl; [reflexivity|].
  rewrite IH. reflexivity.
Qed.

Lemma concat_app sep : forall l1 l2 : list string,
  l1 <> [] -> l2 <> [] ->
  String.concat sep (l1 ++ l2)
  = (String.concat sep l1 ++ sep ++ String.concat sep l2)%string.
Proof.
  induction l1 as [|a l1 IH]; intros l2 H1 H2; [congruence|].
  destruct l1 as [|b l1].
  - destruct l2; [congruence | reflexivity].
  - change (String.concat sep ((a :: b :: l1) ++ l2))
      with (a ++ sep ++ String.concat sep ((b :: l1) ++ l2))%string.
    rewrite IH by (assumption || discriminate).
    change (String.concat sep (a :: b :: l1))
      with (a ++ sep ++ String.concat sep (b :: l1))%string.
    rewrite !append_assoc. reflexivity.
Qed.

Lemma has_char_app c : forall a b,
  has_char c (a ++ b) = has_char c a || has_char c b.
Proof.
  induction a as [|x a IH]; intros b; simpl; [reflexivity|].
  rewrite IH, orb_assoc. reflexivity.
Qed.

Lemma occurs_in_has_char c n : forall hay,
  occurs_in (String c n) hay = true -> has_char c hay = true.
Proof.
  induction hay as [|a hay IH]; intros H.
  - simpl in H. discriminate.
  - cbn [occurs_in starts_with] in H. simpl.
    rewrite (Ascii.eqb_sym a c).
    destruct (Ascii.eqb c a); [reflexivity|].
    simpl in H |- *. apply IH, H.
Qed.

Lemma starts_with_app : forall n b, starts_with n (n ++ b) = true.
Proof.
  induction n as [|c n IH]; intros b; simpl; [reflexivity|].
  rewrite Ascii.eqb_refl. apply IH.
Qed.

Lemma occurs_in_app n : forall a b, occurs_in n (a ++ n ++ b) = true.
Proof.
  induction a as [|c a IH]; intros b.
  - simpl append. destruct (n ++ b)%string eqn:E; cbn [occurs_in];
      rewrite <- E, starts_with_app; reflexivity.
  - simpl append. cbn [occurs_in]. rewrite IH. apply orb_true_r.
Qed.

(** Rendered numbers consist of digits, a sign and a point. *)
Lemma uint_no_Y d : has_char "Y" (NilEmpty.string_of_uint d) = false.
Proof. induction d; simpl; auto. Qed.

Lemma str_int_no_Y z : has_char "Y" (str_int z) = false.
Proof.
  unfold str_int, NilZero.string_of_int, NilZero.string_of_uint.
  destruct (Z.to_int z) as [d|d]; destruct d; simpl; try reflexivity;
    apply uint_no_Y.
Qed.

Lemma fmt_1f_no_Y q : has_char "Y" (fmt_1f q) = false.
Proof.
  unfold fmt_1f. rewrite !has_char_app, !str_int_no_Y.
  destruct (Qlt_le_dec q 0); reflexivity.
Qed.

Lemma statistics_no_Y self m avg M :
  has_char "Y" (String.concat nl (statistics_lines self m avg M)) = false.
Proof.
  unfold statistics_lines. cbn [String.concat].
  rewrite !has_char_app, !str_int_no_Y, !fmt_1f_no_Y. reflexivity.
Qed.

Lemma statistics_start self m avg M : exists tail,
  String.concat nl (statistics_lines self m avg M) = String "T" tail.
Proof. unfold statistics_lines. cbn [String.concat]. eexists. reflexivity. Qed.

(** ** The two guards of the analysis *)

Lemma drop_last_empty (l : list Z) :
  drop_last l = [] <-> (List.length l < 2)%nat.
Proof.
  unfold drop_last. destruct l as [|a [|b l]]; simpl; split; intros H;
    try reflexivity; try lia; try discriminate.
Qed.

Lemma few_intervals self :
  (List.length (intervals self) < 2)%nat ->
  analyze_intervals self = not_enough_data.
Proof.
  intros H. unfold analyze_intervals.
  destruct (Z.ltb_spec (Z.of_nat (List.length (intervals self))) 2);
    [reflexivity | lia].
Qed.

(** What is returned once the first guard is passed. *)
Lemma analyze_report self x rest :
  drop_last (intervals self) = x :: rest ->
  analyze_intervals self
  = String.concat nl
      (statistics_lines self (py_min x rest) (average (x :: rest))
         (py_max x rest)
       ++ (if 2 <=? py_min x rest
           then recommendation_lines self (py_min x rest) else [])).
Proof.
  intros H. unfold analyze_intervals.
  destruct (Z.ltb_spec (Z.of_nat (List.length (intervals self))) 2) as [Hlt|_].
  - assert (E : drop_last (intervals self) = []) by (apply drop_last_empty; lia).
    congruence.
  - rewrite H. destruct (2 <=? py_min x rest); [reflexivity|].
    rewrite app_nil_r. reflexivity.
Qed.

Lemma report_start self x rest :
  drop_last (intervals self) = x :: rest ->
  exists tail, analyze_intervals self = String "T" tail.
Proof.
  intros H. rewrite (analyze_report _ _ _ H).
  destruct (statistics_start self (py_min x rest) (average (x :: rest))
              (py_max x rest)) as [tail Ht].
  destruct (2 <=? py_min x rest).
  - rewrite concat_app by discriminate. rewrite Ht. eexists. reflexivity.
  - rewrite app_nil_r. eauto.
Qed.

(** ** C9: the second guard *)

(** C9.  A list of at least two gaps is not empty once its last element is
    dropped, so the analysis never answers
    "Not enough intervals for analysis". *)
Theorem second_guard_is_dead (self : ShellyMonitor) :
  ((2 <= List.length (intervals self))%nat ->
   drop_last (intervals self) <> []) /\
  analyze_intervals self <> not_enough_intervals.
Proof.
  split.
  - intros H E. apply drop_last_empty in E. lia.
  - destruct (drop_last (intervals self)) as [|x rest] eqn:E.
    + rewrite few_intervals by (apply drop_last_empty; assumption).
      discriminate.
    + destruct (report_start _ _ _ E) as [tail ->]. discriminate.
Qed.

(** ** C2: when the analysis has too little data *)

Definition short_session : ShellyMonitor :=
  self_ (monitor (init "192.168.1.50" "20240101_120000")
           (ticks_of_powers [5; 5; 7; 7; 7; 3]%Q)).

(** C2, as stated, fails: the powers 5,5,7,7,7,3 leave the gaps 2 and 3;
    one gap remains after the last is dropped, and the analysis prints
    statistics over it. *)
Lemma one_interior_gap_is_analysed :
  intervals short_session = [2; 3] /\
  (List.length (drop_last (intervals short_session)) < 2)%nat /\
  analyze_intervals short_session <> not_enough_data /\
  analyze_intervals short_session <> not_enough_intervals /\
  analyze_intervals short_session
  = String.concat nl
      [ "Total samples collected: 6";
        "Number of value changes: 2";
        "";
        "Intervals between value changes:";
        "Minimum: 2 samples (2.0 seconds)";
        "Average: 2.0 samples (2.0 seconds)";
        "Maximum: 2 samples (2.0 seconds)";
        "";
        "You can safely increase the sampling interval to 2.0 seconds";
        "(minimum interval between changes was 2 samples)" ]%string.
Proof.
  split; [reflexivity|]. split; [simpl; lia|].
  split; [discriminate|]. split; [discriminate|]. reflexivity.
Qed.

(** C2, amended.  The analysis answers "Not enough data for analysis"
    exactly when fewer than two gaps were recorded, that is, exactly when
    no gap remains after the last one is dropped; in every other case it
    returns the statistics over the remaining gaps. *)
Theorem insufficient_data_iff_fewer_than_two_gaps (self : ShellyMonitor) :
  (analyze_intervals self = not_enough_data
   <-> (List.length (intervals self) < 2)%nat) /\
  ((List.length (intervals self) < 2)%nat
   <-> drop_last (intervals self) = []) /\
  (analyze_intervals self = not_enough_data \/
   exists x rest,
     drop_last (intervals self) = x :: rest /\
     analyze_intervals self
     = String.concat nl
         (statistics_lines self (py_min x rest) (average (x :: rest))
            (py_max x rest)
          ++ (if 2 <=? py_min x rest
              then recommendation_lines self (py_min x rest) else []))).
Proof.
  destruct (drop_last (intervals self)) as [|x rest] eqn:E.
  - assert (Hlen : (List.length (intervals self) < 2)%nat)
      by (apply drop_last_empty; assumption).
    split; [|split].
    + split; [intros _; assumption | apply few_intervals].
    + split; [intros _; reflexivity | intros _; assumption].
    + left. apply few_intervals. assumption.
  - assert (Hlen : ~ (List.length (intervals self) < 2)%nat).
    { intros H. apply drop_last_empty in H. congruence. }
    split; [|split].
    + split; [|intros H; contradiction].
      destruct (report_start _ _ _ E) as [tail ->]. discriminate.
    + split; [intros H; contradiction | discriminate].
    + right. exists x, rest. split; [reflexivity|].
      apply analyze_report. assumption.
Qed.

(** ** The threshold of the recommendation *)

Lemma recommendation_absent self m avg M :
  occurs_in recommendation_text
    (String.concat nl (statistics_lines self m avg M)) = false.
Proof.
  destruct (occurs_in _ _) eqn:E; [|reflexivity].
  apply occurs_in_has_char in E. rewrite statistics_no_Y in E. discriminate.
Qed.

Lemma recommendation_shape self m :
  String.concat nl (recommendation_lines self m)
  = (nl ++ recommendation_text
       ++ fmt_1f (fmul (sampling_period self) (of_int 2))
       ++ " seconds" ++ nl
       ++ "(minimum interval between changes was " ++ str_int m
       ++ " samples)")%string.
Proof.
  unfold recommendation_lines, recommendation_text. cbn [String.concat].
  rewrite !append_assoc. reflexivity.
Qed.

(** The threshold of the recommendation, for any instance.  When the
    analysis returns statistics, with [m] the minimum of the analysed gaps
    (all recorded gaps but the last): the sentence "You can safely increase
    the sampling interval to ..." occurs in the text exactly when
    [m >= 2]; it then follows the statistics and names the product of the
    sampling period by 2, which for the period 1.0 every instance has is
    exactly its double; for [m < 2] the text is the statistics alone. *)
Theorem recommendation_iff_min_at_least_two (self : ShellyMonitor)
    (x : Z) (rest : list Z) :
  drop_last (intervals self) = x :: rest ->
  let m := py_min x rest in
  let statistics :=
    String.concat nl
      (statistics_lines self m (average (x :: rest)) (py_max x rest)) in
  (In m (x :: rest) /\ forall g, In g (x :: rest) -> m <= g) /\
  occurs_in recommendation_text (analyze_intervals self) = (2 <=? m) /\
  (2 <= m ->
   analyze_intervals self
   = (statistics ++ nl ++ nl ++ recommendation_text
        ++ fmt_1f (fmul (sampling_period self) (of_int 2))
        ++ " seconds" ++ nl
        ++ "(minimum interval between changes was " ++ str_int m
        ++ " samples)")%string) /\
  (m < 2 -> analyze_intervals self = statistics) /\
  (sampling_period self = 1%Q ->
   fmul (sampling_period self) (of_int 2) == 2 * sampling_period self).
Proof.
  intros Hdrop m statistics.
  pose proof (analyze_report _ _ _ Hdrop) as Hrep. fold m in Hrep.
  split; [split; [apply py_min_in | apply py_min_le_all]|].
  assert (Hdouble : sampling_period self = 1%Q ->
            fmul (sampling_period self) (of_int 2) == 2 * sampling_period self)
    by (intros ->; vm_compute; reflexivity).
  destruct (Z.leb_spec 2 m) as [Hge|Hlt].
  - assert (Htext : analyze_intervals self
      = (statistics ++ nl ++ nl ++ recommendation_text
           ++ fmt_1f (fmul (sampling_period self) (of_int 2))
           ++ " seconds" ++ nl
           ++ "(minimum interval between changes was " ++ str_int m
           ++ " samples)")%string).
    { rewrite Hrep, concat_app by discriminate.
      rewrite recommendation_shape. reflexivity. }
    split; [|split; [intros _; exact Htext | split; [intros H; lia | exact Hdouble]]].
    rewrite Htext.
    rewrite <- (append_assoc statistics nl), <- (append_assoc _ nl).
    apply occurs_in_app.
  - assert (Htext : analyze_intervals self = statistics).
    { rewrite Hrep, app_nil_r. reflexivity. }
    split; [|split; [intros H; lia | split; [intros _; exact Htext | exact Hdouble]]].
    rewrite Htext. apply recommendation_absent.
Qed.

Definition long_session : ShellyMonitor :=
  self_ (monitor (init "192.168.1.50" "20240101_120000")
           (ticks_of_powers example_powers)).

Lemma recommendation_iff_min_at_least_two_witness :
  drop_last (intervals long_session) = [3; 4] /\
  occurs_in recommendation_text (analyze_intervals long_session) = true /\
  occurs_in "to 2.0 seconds" (analyze_intervals long_session) = true.
Proof.
  assert (H : drop_last (intervals long_session) = [3; 4]) by reflexivity.
  split; [exact H|].
  destruct (recommendation_iff_min_at_least_two long_session 3 [4] H)
    as [_ [Hocc _]].
  split; [rewrite Hocc; reflexivity | reflexivity].
Defined.

(** ** C8: the analysis changes nothing *)

Lemma analyze_depends_on self self' :
  List.length (data self) = List.length (data self') ->
  intervals self = intervals self' ->
  sampling_period self = sampling_period self' ->
  analyze_intervals self = analyze_intervals self'.
Proof.
  intros Hd Hi Hp. unfold analyze_intervals, statistics_lines,
    recommendation_lines. rewrite Hd, Hi, Hp. reflexivity.
Qed.

(** ** The analysis on a store of list objects

    Python lists are objects: [self.data] and [self.intervals] are
    references, and a method could change the lists they point to.  Here
    the lists live in a store, an object being identified by its position,
    and the method runs as a sequence of reads, allocations and updates. *)

Inductive Obj : Type :=
| Rows (l : list Reading)
| Ints (l : list Z)
| Strs (l : list string).

Definition Store : Type := list Obj.

(** The attributes the method reads. *)
Record Instance : Type := mkInstance {
  data_at : nat;          (* self.data *)
  intervals_at : nat;     (* self.intervals *)
  period_of : Q           (* self.sampling_period *)
}.

(** A computation on the store; [None] is a failed access. *)
Definition Run (A : Type) : Type := Store -> option (A * Store).

Definition ret {A : Type} (a : A) : Run A := fun s => Some (a, s).

Definition and_then {A B : Type} (c : Run A) (k : A -> Run B) : Run B :=
  fun s =>
    match c s with
    | Some (a, s') => k a s'
    | None => None
    end.

Notation "x <~ c ;; k" := (and_then c (fun x => k))
  (at level 61, c at next level, right associativity).
Notation "c ;;; k" := (and_then c (fun _ => k))
  (at level 61, right associativity).

Fixpoint update (n : nat) (o : Obj) (s : Store) : Store :=
  match s, n with
  | [], _ => []
  | _ :: rest, O => o :: rest
  | x :: rest, S n' => x :: update n' o rest
  end.

(** A new object, placed after all existing ones. *)
Definition alloc (o : Obj) : Run nat :=
  fun s => Some (List.length s, s ++ [o]).

Definition ints_at (r : nat) : Run (list Z) :=
  fun s => match nth_error s r with
           | Some (Ints l) => Some (l, s)
           | _ => None
           end.

Definition rows_at (r : nat) : Run (list Reading) :=
  fun s => match nth_error s r with
           | Some (Rows l) => Some (l, s)
           | _ => None
           end.

Definition strs_at (r : nat) : Run (list string) :=
  fun s => match nth_error s r with
           | Some (Strs l) => Some (l, s)
           | _ => None
           end.

(** [list.append] on a list of strings: the object itself is changed. *)
Definition append_str (r : nat) (line : string) : Run unit :=
  fun s => match nth_error s r with
           | Some (Strs l) => Some (tt, update r (Strs (l ++ [line])) s)
           | _ => None
           end.

(** [min], [max] and the division by [len] raise on an empty list. *)
Definition of_nonempty {A : Type} (f : Z -> list Z -> A) (l : list Z)
  : Run A :=
  fun s => match l with
           | [] => None
           | y :: more => Some (f y more, s)
           end.

(** [analyze_intervals], statement by statement. *)
Definition analyze_intervals_on (self : Instance) : Run string :=
  all <~ ints_at (intervals_at self) ;;
  if Z.of_nat (List.length all) <? 2 then ret not_enough_data
  else
    all <~ ints_at (intervals_at self) ;;
    intervals <~ alloc (Ints (drop_last all)) ;;
    kept <~ ints_at intervals ;;
    match kept with
    | [] => ret not_enough_intervals
    | x :: rest =>
        analysis <~ alloc (Strs []) ;;
        rows <~ rows_at (data_at self) ;;
        append_str analysis
          ("Total samples collected: "
             ++ str_int (Z.of_nat (List.length rows))) ;;;
        all <~ ints_at (intervals_at self) ;;
        append_str analysis
          ("Number of value changes: "
             ++ str_int (Z.of_nat (List.length all))) ;;;
        append_str analysis (nl ++ "Intervals between value changes:") ;;;
        kept <~ ints_at intervals ;;
        min_samples <~ of_nonempty py_min kept ;;
        avg_samples <~ of_nonempty (fun y more => average (y :: more)) kept ;;
        max_samples <~ of_nonempty py_max kept ;;
        append_str analysis
          ("Minimum: " ++ str_int min_samples ++ " samples ("
             ++ fmt_1f (fmul (of_int min_samples) (period_of self))
             ++ " seconds)") ;;;
        append_str analysis
          ("Average: " ++ fmt_1f avg_samples ++ " samples ("
             ++ fmt_1f (fmul avg_samples (period_of self))
             ++ " seconds)") ;;;
        append_str analysis
          ("Maximum: " ++ str_int max_samples ++ " samples ("
             ++ fmt_1f (fmul (of_int max_samples) (period_of self))
             ++ " seconds)") ;;;
        (if 2 <=? min_samples
         then
           append_str analysis
             (nl ++ "You can safely increase the sampling interval to "
                ++ fmt_1f (fmul (period_of self) (of_int 2))
                ++ " seconds") ;;;
           append_str analysis
             ("(minimum interval between changes was "
                ++ str_int min_samples ++ " samples)")
         else ret tt) ;;;
        lines <~ strs_at analysis ;;
        ret (String.concat nl lines)
    end.

(** The instance a store holds, as the record of the first part. *)
Definition snapshot (rows : list Reading) (gaps : list Z) (period : Q)
  : ShellyMonitor :=
  mkShellyMonitor "" "" rows None gaps None true period "" "" "".

Lemma nth_error_kept (s ext : Store) r o :
  nth_error s r = Some o -> nth_error (s ++ ext) r = Some o.
Proof.
  intros H. rewrite nth_error_app1; [assumption|].
  apply nth_error_Some. congruence.
Qed.

Lemma nth_error_new (s : Store) o ext :
  nth_error (s ++ o :: ext) (List.length s) = Some o.
Proof. rewrite nth_error_app2, Nat.sub_diag by lia. reflexivity. Qed.

Lemma nth_error_newer (s : Store) a o :
  nth_error (s ++ [a; o]) (S (List.length s)) = Some o.
Proof.
  rewrite nth_error_app2 by lia.
  replace (S (List.length s) - List.length s)%nat with 1%nat by lia.
  reflexivity.
Qed.

Lemma update_newer (s : Store) a o o' :
  update (S (List.length s)) o' (s ++ [a; o]) = s ++ [a; o'].
Proof.
  induction s as [|x s IH]; [reflexivity|].
  cbn [List.length app update]. f_equal. exact IH.
Qed.

Lemma run_append (s : Store) a l line :
  append_str (S (List.length s)) line (s ++ [a; Strs l])
  = Some (tt, s ++ [a; Strs (l ++ [line])]).
Proof.
  unfold append_str. rewrite nth_error_newer. cbv iota beta.
  rewrite update_newer. reflexivity.
Qed.

Lemma run_ints (s ext : Store) r l :
  nth_error s r = Some (Ints l) -> ints_at r (s ++ ext) = Some (l, s ++ ext).
Proof. intros H. unfold ints_at. rewrite (nth_error_kept _ _ _ _ H). reflexivity. Qed.

Lemma run_rows (s ext : Store) r l :
  nth_error s r = Some (Rows l) -> rows_at r (s ++ ext) = Some (l, s ++ ext).
Proof. intros H. unfold rows_at. rewrite (nth_error_kept _ _ _ _ H). reflexivity. Qed.

Lemma run_analysis (s : Store) (self : Instance) rows gaps :
  nth_error s (data_at self) = Some (Rows rows) ->
  nth_error s (intervals_at self) = Some (Ints gaps) ->
  exists ext,
    analyze_intervals_on self s
    = Some (analyze_intervals (snapshot rows gaps (period_of self)), s ++ ext).
Proof.
  intros Hrows Hgaps.
  pose proof (run_ints s [] _ _ Hgaps) as H0. rewrite app_nil_r in H0.
  unfold analyze_intervals_on, analyze_intervals. cbn [intervals snapshot].
  unfold and_then at 1. rewrite H0.
  destruct (Z.of_nat (List.length gaps) <? 2) eqn:Hfew.
  - exists []. rewrite app_nil_r. reflexivity.
  - unfold and_then at 1. rewrite H0.
    unfold and_then at 1. unfold alloc at 1.
    unfold and_then at 1. unfold ints_at at 1. rewrite nth_error_new.
    destruct (drop_last gaps) as [|x rest] eqn:Hkept.
    + exists [Ints []]. reflexivity.
    + unfold and_then at 1. unfold alloc at 1.
      rewrite length_app. cbn [List.length]. rewrite Nat.add_1_r.
      rewrite <- app_assoc. cbn [app].
      unfold and_then at 1. rewrite (run_rows s _ _ _ Hrows).
      unfold and_then at 1. rewrite run_append.
      unfold and_then at 1. rewrite (run_ints s _ _ _ Hgaps).
      unfold and_then at 1. rewrite run_append.
      unfold and_then at 1. rewrite run_append.
      unfold and_then at 1. unfold ints_at at 1. rewrite nth_error_new.
      unfold and_then at 1. unfold of_nonempty at 1.
      unfold and_then at 1. unfold of_nonempty at 1.
      unfold and_then at 1. unfold of_nonempty at 1.
      unfold and_then at 1. rewrite run_append.
      unfold and_then at 1. rewrite run_append.
      unfold and_then at 1. rewrite run_append.
      unfold and_then at 1.
      destruct (2 <=? py_min x rest).
      * unfold and_then at 1. rewrite run_append. rewrite run_append.
        unfold and_then at 1. unfold strs_at. rewrite nth_error_newer.
        eexists. reflexivity.
      * unfold ret at 1.
        unfold and_then at 1. unfold strs_at. rewrite nth_error_newer.
        eexists. reflexivity.
Qed.

(** C8.  Run on a store in which [self.data] and [self.intervals] are list
    objects, the analysis returns its text and leaves every object that
    existed before the call exactly as it was, the reading log and the
    list of gaps among them (the slice and the list of lines are new
    objects); a second call on the resulting store returns the same text,
    character for character; and the text is the one [analyze_intervals]
    gives for the instance with this log, these gaps and this period. *)
Theorem analysis_leaves_the_store_unchanged (s : Store) (self : Instance)
    (rows : list Reading) (gaps : list Z) :
  nth_error s (data_at self) = Some (Rows rows) ->
  nth_error s (intervals_at self) = Some (Ints gaps) ->
  exists text s1,
    analyze_intervals_on self s = Some (text, s1) /\
    (forall r, (r < List.length s)%nat -> nth_error s1 r = nth_error s r) /\
    nth_error s1 (data_at self) = Some (Rows rows) /\
    nth_error s1 (intervals_at self) = Some (Ints gaps) /\
    (exists s2, analyze_intervals_on self s1 = Some (text, s2)) /\
    (forall m : ShellyMonitor,
       data m = rows -> intervals m = gaps ->
       sampling_period m = period_of self ->
       analyze_intervals m = text).
Proof.
  intros Hrows Hgaps.
  destruct (run_analysis s self rows gaps Hrows Hgaps) as [ext Hrun].
  exists (analyze_intervals (snapshot rows gaps (period_of self))), (s ++ ext).
  assert (Hrows1 : nth_error (s ++ ext) (data_at self) = Some (Rows rows))
    by (apply nth_error_kept; assumption).
  assert (Hgaps1 : nth_error (s ++ ext) (intervals_at self) = Some (Ints gaps))
    by (apply nth_error_kept; assumption).
  split; [exact Hrun|]. split; [|split; [exact Hrows1|split; [exact Hgaps1|split]]].
  - intros r Hr. apply nth_error_app1. exact Hr.
  - destruct (run_analysis (s ++ ext) self rows gaps Hrows1 Hgaps1)
      as [ext' Hrun'].
    exists ((s ++ ext) ++ ext'). exact Hrun'.
  - intros m Hd Hi Hp. apply analyze_depends_on.
    + rewrite Hd. reflexivity.
    + rewrite Hi. reflexivity.
    + rewrite Hp. reflexivity.
Qed.

Definition example_store : Store :=
  [ Rows [(0, 5); (1, 5); (2, 7); (3, 7); (4, 7); (5, 3)]%Q; Ints [2; 3] ].

Lemma analysis_leaves_the_store_unchanged_witness :
  exists s1,
    analyze_intervals_on (mkInstance 0 1 1) example_store
    = Some (analyze_intervals short_session, s1) /\
    firstn 2 s1 = example_store.
Proof.
  destruct (analysis_leaves_the_store_unchanged example_store
              (mkInstance 0 1 1)
              [(0, 5); (1, 5); (2, 7); (3, 7); (4, 7); (5, 3)]%Q [2; 3]
              eq_refl eq_refl)
    as [text [s1 [Hrun [Hframe [_ [_ [_ Hsame]]]]]]].
  exists s1. split.
  - rewrite Hrun. f_equal. f_equal. symmetry.
    assert (E : analyze_intervals
                  (snapshot [(0, 5); (1, 5); (2, 7); (3, 7); (4, 7); (5, 3)]%Q
                     [2; 3] 1) = text)
      by (apply Hsame; reflexivity).
    rewrite <- E. vm_compute. reflexivity.
  - pose proof (Hframe 0%nat ltac:(simpl; lia)) as H0.
    pose proof (Hframe 1%nat ltac:(simpl; lia)) as H1.
    destruct s1 as [|a [|b s1]]; try discriminate.
    simpl in H0, H1. injection H0 as ->. injection H1 as ->. reflexivity.
Defined.

(** * Further properties of the program *)

(** ** The loop and the stop signal *)

(** The row a successful iteration appends to [self.data]. *)
Definition reading_of (t : Tick) : list Reading :=
  match poll t with
  | Some power => [(stamp t, power)]
  | None => []
  end.

Lemma executed_until_signal a : forall t b,
  sigint t = true -> executed (a ++ t :: b) = executed (a ++ [t]).
Proof.
  induction a as [|x a IH]; intros t b Hs; simpl.
  - rewrite Hs. reflexivity.
  - rewrite (IH t b Hs). reflexivity.
Qed.

Lemma monitor_loop_executed ticks : forall st,
  monitor_loop ticks st = monitor_loop (executed ticks) st.
Proof.
  induction ticks as [|t rest IH]; intros st; [reflexivity|].
  cbn [executed monitor_loop].
  destruct (running (self_ st)) eqn:Hrun; [|reflexivity].
  destruct (sigint t) eqn:Hs; [|apply IH].
  rewrite monitor_loop_stopped; [reflexivity|].
  rewrite loop_body_running, Hs. reflexivity.
Qed.

Lemma monitor_loop_flag ticks : forall st,
  running (self_ st) = true ->
  running (self_ (monitor_loop ticks st)) = negb (existsb sigint ticks).
Proof.
  induction ticks as [|t rest IH]; intros st Hrun; simpl; [assumption|].
  rewrite Hrun. pose proof (loop_body_running t st) as Hb.
  destruct (sigint t); simpl.
  - rewrite monitor_loop_stopped; assumption.
  - apply IH. rewrite Hb. assumption.
Qed.

(** X1.  The loop never enters an iteration after the one during which the
    signal arrived: whatever the world would have offered afterwards, the
    state and the output are those of the run that ends with the signalled
    iteration, whose own poll is still completed and recorded; and the loop
    is left with [running = False] exactly when a signal arrived. *)
Theorem nothing_runs_after_the_signal (self : ShellyMonitor)
    (before : list Tick) (t : Tick) (after : list Tick) :
  sigint t = true ->
  monitor self (before ++ t :: after) = monitor self (before ++ [t]) /\
  (running self = true ->
   forallb (fun x => negb (sigint x)) before = true ->
   running (self_ (monitor self (before ++ t :: after))) = false /\
   data (self_ (monitor self (before ++ t :: after)))
   = data (self_ (monitor self before)) ++ reading_of t).
Proof.
  intros Hs. unfold monitor.
  assert (Hcut : monitor_loop (before ++ t :: after) (start self)
                 = monitor_loop (before ++ [t]) (start self)).
  { rewrite monitor_loop_executed, (executed_until_signal before t after Hs).
    symmetry. apply monitor_loop_executed. }
  split; [exact Hcut|].
  intros Hrun Hquiet. rewrite Hcut, monitor_loop_app.
  set (st := monitor_loop before (start self)).
  assert (Hst : running (self_ st) = true).
  { unfold st. rewrite monitor_loop_flag by assumption.
    clear -Hquiet. induction before as [|x l IH]; [reflexivity|].
    simpl in Hquiet |- *. apply andb_true_iff in Hquiet.
    destruct Hquiet as [Hx Hl]. apply negb_true_iff in Hx.
    rewrite Hx. simpl. apply IH, Hl. }
  cbn [monitor_loop]. rewrite Hst. split.
  - rewrite loop_body_running, Hs. reflexivity.
  - unfold loop_body, reading_of. rewrite Hs.
    destruct (poll t); simpl; rewrite ?check_value_change_data, ?app_nil_r;
      reflexivity.
Qed.

Definition interrupted_trace : list Tick :=
  [ mkTick 0 (Some 5%Q) 0 (1 # 4) false;
    mkTick 1 (Some 7%Q) 1 (5 # 4) true;
    mkTick 2 (Some 9%Q) 2 (9 # 4) false ].

Lemma nothing_runs_after_the_signal_witness :
  sigint (mkTick 1 (Some 7%Q) 1 (5 # 4) true) = true /\
  monitor (init "10.0.0.7" "20240101_120000") interrupted_trace
  = monitor (init "10.0.0.7" "20240101_120000")
      [ mkTick 0 (Some 5%Q) 0 (1 # 4) false;
        mkTick 1 (Some 7%Q) 1 (5 # 4) true ] /\
  List.length (data (self_ (monitor (init "10.0.0.7" "20240101_120000")
                              interrupted_trace))) = 2%nat.
Proof.
  split; [reflexivity|].
  destruct (nothing_runs_after_the_signal
              (init "10.0.0.7" "20240101_120000")
              [mkTick 0 (Some 5%Q) 0 (1 # 4) false]
              (mkTick 1 (Some 7%Q) 1 (5 # 4) true)
              [mkTick 2 (Some 9%Q) 2 (9 # 4) false] eq_refl) as [Hcut _].
  split; [exact Hcut|].
  unfold interrupted_trace. simpl app in Hcut. rewrite Hcut. reflexivity.
Defined.

(** ** The reading log *)

Lemma loop_body_data t st :
  data (self_ (loop_body t st)) = data (self_ st) ++ reading_of t.
Proof.
  unfold loop_body, reading_of.
  destruct (poll t), (sigint t); simpl;
    rewrite ?check_value_change_data, ?app_nil_r; reflexivity.
Qed.

Lemma monitor_loop_data ticks : forall st,
  running (self_ st) = true ->
  data (self_ (monitor_loop ticks st))
  = data (self_ st) ++ flat_map reading_of (executed ticks).
Proof.
  induction ticks as [|t rest IH]; intros st Hrun.
  - simpl. rewrite app_nil_r. reflexivity.
  - cbn [monitor_loop executed flat_map]. rewrite Hrun.
    pose proof (loop_body_running t st) as Hb.
    destruct (sigint t) eqn:Hs.
    + rewrite monitor_loop_stopped by assumption.
      rewrite loop_body_data. simpl. rewrite app_nil_r. reflexivity.
    + rewrite IH by (rewrite Hb; assumption).
      rewrite loop_body_data, <- app_assoc. reflexivity.
Qed.

(** The readings the progress line can show.  [get_power] hands on
    whatever the device put under "power"; the format [6.2f] of the
    progress line raises for a value that is not a number and for an
    integer beyond the range of a float, and the loop then ends in an
    exception instead of going on.  The traces of this development hold
    numbers only; this is the condition that they are also within range. *)
Definition showable (ticks : list Tick) : Prop :=
  forall t q, In t ticks -> poll t = Some q ->
    (Qabs q < inject_Z (2 ^ 1023))%Q.

Lemma interrupted_trace_showable : showable interrupted_trace.
Proof.
  intros t q Hin Hp. simpl in Hin.
  destruct Hin as [<-|[<-|[<-|[]]]]; simpl in Hp; injection Hp as <-;
    reflexivity.
Qed.

(** X2.  In a session whose polls fail or return numbers the progress line
    can show, the reading log is the sequence of [[timestamp, power]] rows
    of the successful polls, in the order of the polls, up to and including
    the iteration of the stop signal; and the sample index the loop ends
    with is the number of rows. *)
Theorem log_is_the_successful_polls (ip_address stamp0 : string)
    (ticks : list Tick) :
  showable ticks ->
  let st := monitor (init ip_address stamp0) ticks in
  data (self_ st) = flat_map reading_of (executed ticks) /\
  current_idx st
  = Z.of_nat (List.length (filter succeeded (executed ticks))).
Proof.
  intros _ st.
  assert (Hdata : data (self_ st) = flat_map reading_of (executed ticks)).
  { unfold st, monitor. rewrite monitor_loop_data by reflexivity.
    reflexivity. }
  split; [exact Hdata|].
  unfold st, monitor. rewrite index_is_log_length by reflexivity.
  fold (monitor (init ip_address stamp0) ticks). fold st. rewrite Hdata.
  f_equal. clear. induction (executed ticks) as [|t l IH]; [reflexivity|].
  simpl. rewrite length_app, IH. unfold reading_of, succeeded.
  destruct (poll t); reflexivity.
Qed.

Lemma log_is_the_successful_polls_witness :
  showable interrupted_trace /\
  data (self_ (monitor (init "10.0.0.7" "20240101_120000") interrupted_trace))
  = flat_map reading_of (executed interrupted_trace).
Proof.
  split; [exact interrupted_trace_showable|].
  exact (proj1 (log_is_the_successful_polls "10.0.0.7" "20240101_120000"
                  interrupted_trace interrupted_trace_showable)).
Defined.

(** ** Nothing recorded is ever taken back *)

Lemma check_value_change_grows self p i :
  exists more,
    intervals (check_value_change self p i) = intervals self ++ more.
Proof.
  unfold check_value_change.
  destruct (last_measurement self); [|exists []; simpl; rewrite app_nil_r; reflexivity].
  destruct (negb _); [|exists []; rewrite app_nil_r; reflexivity].
  destruct (last_change_idx self); simpl.
  - eexists. reflexivity.
  - exists []. rewrite app_nil_r. reflexivity.
Qed.

Lemma loop_body_grows t st :
  exists more,
    intervals (self_ (loop_body t st)) = intervals (self_ st) ++ more.
Proof.
  unfold loop_body.
  destruct (poll t) as [p|], (sigint t); simpl;
    try (exists []; rewrite app_nil_r; reflexivity).
  - destruct (check_value_change_grows
                (set_data (self_ st) (data (self_ st) ++ [(stamp t, p)]))
                p (current_idx st)) as [more H].
    exists more. exact H.
  - destruct (check_value_change_grows
                (set_data (self_ st) (data (self_ st) ++ [(stamp t, p)]))
                p (current_idx st)) as [more H].
    exists more. exact H.
Qed.

Lemma monitor_loop_grows ticks : forall st,
  (exists rows, data (self_ (monitor_loop ticks st)) = data (self_ st) ++ rows) /\
  (exists gaps,
     intervals (self_ (monitor_loop ticks st)) = intervals (self_ st) ++ gaps).
Proof.
  induction ticks as [|t rest IH]; intros st; simpl.
  - split; exists []; rewrite app_nil_r; reflexivity.
  - destruct (running (self_ st)).
    + destruct (IH (loop_body t st)) as [[rows Hr] [gaps Hg]].
      destruct (loop_body_grows t st) as [more Hm].
      split.
      * exists (reading_of t ++ rows).
        rewrite Hr, loop_body_data, app_assoc. reflexivity.
      * exists (more ++ gaps). rewrite Hg, Hm, app_assoc. reflexivity.
    + split; exists []; rewrite app_nil_r; reflexivity.
Qed.

(** X3.  The reading log and the list of gaps only grow: whatever a session
    has recorded after some iterations is still there, unchanged and at the
    front, however the session goes on. *)
Theorem records_are_append_only (self : ShellyMonitor)
    (so_far later : list Tick) :
  (exists rows,
     data (self_ (monitor self (so_far ++ later)))
     = data (self_ (monitor self so_far)) ++ rows) /\
  (exists gaps,
     intervals (self_ (monitor self (so_far ++ later)))
     = intervals (self_ (monitor self so_far)) ++ gaps).
Proof.
  unfold monitor. rewrite monitor_loop_app. apply monitor_loop_grows.
Qed.

(** ** What the recorded gaps are *)

(** The differences between consecutive elements of [prev :: l]. *)
Fixpoint diffs (prev : Z) (l : list Z) : list Z :=
  match l with
  | [] => []
  | x :: rest => (x - prev) :: diffs x rest
  end.

Lemma diffs_length prev l : List.length (diffs prev l) = List.length l.
Proof. revert prev. induction l as [|x l IH]; intros prev; simpl; auto. Qed.

(** After the first reading: every change appends the distance to the
    stored change index. *)
Lemma gaps_once_stored ticks : forall st m last,
  last_measurement (self_ st) = Some m ->
  last_change_idx (self_ st) = Some last ->
  intervals (self_ (monitor_loop ticks st))
  = intervals (self_ st) ++ diffs last (change_indices ticks st).
Proof.
  induction ticks as [|t rest IH]; intros st m last Hm Hl; simpl.
  - rewrite app_nil_r. reflexivity.
  - destruct (running (self_ st)); [|rewrite app_nil_r; reflexivity].
    destruct (poll t) as [p|] eqn:Hp.
    + unfold value_changed. rewrite Hm.
      destruct (negb (Qeq_bool m p)) eqn:Hc.
      * rewrite (IH (loop_body t st) p (current_idx st)).
        -- unfold loop_body, check_value_change. rewrite Hp.
           destruct (sigint t); simpl; rewrite Hm, Hc, Hl; simpl;
             rewrite <- app_assoc; reflexivity.
        -- unfold loop_body, check_value_change. rewrite Hp.
           destruct (sigint t); simpl; rewrite Hm, Hc, Hl; reflexivity.
        -- unfold loop_body, check_value_change. rewrite Hp.
           destruct (sigint t); simpl; rewrite Hm, Hc, Hl; reflexivity.
      * rewrite (IH (loop_body t st) m last).
        -- unfold loop_body, check_value_change. rewrite Hp.
           destruct (sigint t); simpl; rewrite Hm, Hc; reflexivity.
        -- unfold loop_body, check_value_change. rewrite Hp.
           destruct (sigint t); simpl; rewrite Hm, Hc; simpl; assumption.
        -- unfold loop_body, check_value_change. rewrite Hp.
           destruct (sigint t); simpl; rewrite Hm, Hc; simpl; assumption.
    + rewrite (IH (loop_body t st) m last).
      * unfold loop_body. rewrite Hp. destruct (sigint t); reflexivity.
      * unfold loop_body. rewrite Hp. destruct (sigint t); assumption.
      * unfold loop_body. rewrite Hp. destruct (sigint t); assumption.
Qed.

(** Before the first reading: the first successful poll stores the current
    index, which failed polls have not moved. *)
Lemma gaps_from_scratch ticks : forall st,
  last_measurement (self_ st) = None ->
  intervals (self_ (monitor_loop ticks st))
  = intervals (self_ st) ++ diffs (current_idx st) (change_indices ticks st).
Proof.
  induction ticks as [|t rest IH]; intros st Hm; simpl.
  - rewrite app_nil_r. reflexivity.
  - destruct (running (self_ st)); [|rewrite app_nil_r; reflexivity].
    destruct (poll t) as [p|] eqn:Hp.
    + unfold value_changed. rewrite Hm. simpl.
      rewrite (gaps_once_stored rest (loop_body t st) p (current_idx st)).
      * unfold loop_body, check_value_change. rewrite Hp.
        destruct (sigint t); simpl; rewrite Hm; reflexivity.
      * unfold loop_body, check_value_change. rewrite Hp.
        destruct (sigint t); simpl; rewrite Hm; reflexivity.
      * unfold loop_body, check_value_change. rewrite Hp.
        destruct (sigint t); simpl; rewrite Hm; reflexivity.
    + simpl. rewrite (IH (loop_body t st)).
      * unfold loop_body. rewrite Hp. destruct (sigint t); reflexivity.
      * unfold loop_body. rewrite Hp. destruct (sigint t); assumption.
Qed.

(** X4.  The gaps a session records are the differences between consecutive
    entries of the list made of 0 followed by the indices of the detected
    changes: one gap per change, the first one counted from sample 0. *)
Theorem gaps_are_differences_of_change_indices (ip_address stamp0 : string)
    (ticks : list Tick) :
  let changes := change_indices ticks (start (init ip_address stamp0)) in
  let self := self_ (monitor (init ip_address stamp0) ticks) in
  intervals self = diffs 0 changes /\
  List.length (intervals self) = List.length changes.
Proof.
  intros changes self.
  assert (H : intervals self = diffs 0 changes).
  { unfold self, monitor. rewrite gaps_from_scratch by reflexivity.
    reflexivity. }
  split; [exact H|]. rewrite H. apply diffs_length.
Qed.

(** ** The gaps add up to the index of the last change *)

Lemma py_sum_snoc l x : py_sum (l ++ [x]) = py_sum l + x.
Proof. unfold py_sum. rewrite fold_left_app. reflexivity. Qed.

(** Nothing is recorded before the first reading; afterwards the stored
    change index is the sum of the gaps and lies below the sample index. *)
Definition ledger (st : LoopState) : Prop :=
  match last_measurement (self_ st) with
  | None => intervals (self_ st) = [] /\ current_idx st = 0
  | Some _ =>
      last_change_idx (self_ st) = Some (py_sum (intervals (self_ st))) /\
      py_sum (intervals (self_ st)) < current_idx st
  end.

Lemma check_value_change_ledger self p i :
  match last_measurement self with
  | None => intervals self = [] /\ i = 0
  | Some _ =>
      last_change_idx self = Some (py_sum (intervals self)) /\
      py_sum (intervals self) < i
  end ->
  match last_measurement (check_value_change self p i) with
  | None => False
  | Some _ =>
      last_change_idx (check_value_change self p i)
      = Some (py_sum (intervals (check_value_change self p i))) /\
      py_sum (intervals (check_value_change self p i)) < i + 1
  end.
Proof.
  unfold check_value_change.
  destruct (last_measurement self) as [m|] eqn:Hm.
  - intros [Hl Hlt]. destruct (negb (Qeq_bool m p)).
    + rewrite Hl. simpl. rewrite py_sum_snoc. split; [f_equal; lia | lia].
    + rewrite Hm. split; [assumption | lia].
  - intros [Hi H0]. simpl. rewrite Hi, H0. split; reflexivity.
Qed.

Lemma loop_body_ledger t st : ledger st -> ledger (loop_body t st).
Proof.
  intros H. unfold ledger, loop_body.
  destruct (poll t) as [p|]; [|destruct (sigint t); exact H].
  pose proof (check_value_change_ledger
                (set_data (self_ st) (data (self_ st) ++ [(stamp t, p)]))
                p (current_idx st) H) as H'.
  destruct (sigint t); simpl;
    destruct (last_measurement (check_value_change _ p (current_idx st)));
    (exact H' || contradiction).
Qed.

Lemma monitor_loop_ledger ticks : forall st,
  ledger st -> ledger (monitor_loop ticks st).
Proof.
  induction ticks as [|t rest IH]; intros st H; simpl; [assumption|].
  destruct (running (self_ st)); [|assumption].
  apply IH, loop_body_ledger, H.
Qed.

(** X5.  In every session, once a reading is stored, [last_change_idx] is
    the sum of all recorded gaps, and that sum is smaller than the number
    of readings; before the first reading there is no gap at all. *)
Theorem gaps_add_up_to_last_change (ip_address stamp0 : string)
    (ticks : list Tick) :
  let self := self_ (monitor (init ip_address stamp0) ticks) in
  match last_measurement self with
  | None => data self = [] /\ intervals self = []
  | Some _ =>
      last_change_idx self = Some (py_sum (intervals self)) /\
      py_sum (intervals self) < Z.of_nat (List.length (data self))
  end.
Proof.
  intros self.
  pose proof (monitor_loop_ledger ticks (start (init ip_address stamp0))) as H.
  pose proof (index_is_log_length ticks (start (init ip_address stamp0))
                eq_refl) as Hx.
  fold (monitor (init ip_address stamp0) ticks) in H, Hx.
  unfold ledger in H. fold self in H, Hx.
  destruct (last_measurement self).
  - destruct H as [Hl Hlt]; [split; reflexivity|].
    split; [assumption | lia].
  - destruct H as [Hi H0]; [split; reflexivity|].
    split; [|assumption].
    rewrite H0 in Hx. destruct (data self); [reflexivity | discriminate].
Qed.

(** X6.  A session never records more gaps than readings, and one with at
    least one reading records strictly fewer gaps than readings; with fewer
    than three readings the analysis therefore always answers
    "Not enough data for analysis". *)
Theorem three_readings_are_needed (ip_address stamp0 : string)
    (ticks : list Tick) :
  let self := self_ (monitor (init ip_address stamp0) ticks) in
  (List.length (intervals self) <= List.length (data self))%nat /\
  (data self <> [] ->
   (List.length (intervals self) < List.length (data self))%nat) /\
  ((List.length (data self) < 3)%nat ->
   analyze_intervals self = not_enough_data).
Proof.
  intros self.
  assert (Hcount : (List.length (intervals self)
                    <= List.length (data self) - 1)%nat).
  { pose proof (monitor_loop_ledger ticks (start (init ip_address stamp0))) as H.
    pose proof (index_is_log_length ticks (start (init ip_address stamp0))
                  eq_refl) as Hx.
    pose proof (monitor_loop_idx_inv ticks (start (init ip_address stamp0))) as Hp.
    fold (monitor (init ip_address stamp0) ticks) in H, Hx, Hp.
    unfold ledger in H. fold self in H, Hx.
    destruct Hp as [Hpos _]; [apply idx_inv_start; reflexivity|].
    fold self in Hpos. apply py_sum_lower in Hpos.
    destruct (last_measurement self).
    - destruct H as [_ Hlt]; [split; reflexivity|]. lia.
    - destruct H as [Hi _]; [split; reflexivity|]. rewrite Hi. simpl. lia. }
  split; [lia|]. split.
  - intros Hsome. destruct (data self); [congruence|]. simpl in *. lia.
  - intros Hfew. apply few_intervals. lia.
Qed.

(** ** The stored measurement *)

(** The power of the last row of the log. *)
Definition last_power (rows : list Reading) : option Q :=
  match rev rows with
  | [] => None
  | (_, power) :: _ => Some power
  end.

(** [last_measurement] agrees with the newest row. *)
Definition tracks (self : ShellyMonitor) : Prop :=
  match last_measurement self, last_power (data self) with
  | None, None => True
  | Some m, Some p => m == p
  | _, _ => False
  end.

Lemma last_power_snoc rows r : last_power (rows ++ [r]) = Some (snd r).
Proof. unfold last_power. rewrite rev_app_distr. destruct r. reflexivity. Qed.

Lemma loop_body_tracks t st : tracks (self_ st) -> tracks (self_ (loop_body t st)).
Proof.
  intros H. unfold loop_body.
  destruct (poll t) as [p|]; [|destruct (sigint t); exact H].
  assert (Hgoal : tracks (check_value_change
            (set_data (self_ st) (data (self_ st) ++ [(stamp t, p)]))
            p (current_idx st))).
  { unfold tracks. rewrite check_value_change_data. simpl data.
    rewrite last_power_snoc. simpl snd.
    unfold check_value_change. simpl last_measurement.
    destruct (last_measurement (self_ st)) as [m|] eqn:Hm; simpl.
    - destruct (Qeq_bool m p) eqn:Hc; simpl.
      + rewrite Hm. apply Qeq_bool_iff. assumption.
      + destruct (last_change_idx (self_ st)); simpl; reflexivity.
    - reflexivity. }
  destruct (sigint t); exact Hgoal.
Qed.

Lemma monitor_loop_tracks ticks : forall st,
  tracks (self_ st) -> tracks (self_ (monitor_loop ticks st)).
Proof.
  induction ticks as [|t rest IH]; intros st H; simpl; [assumption|].
  destruct (running (self_ st)); [|assumption].
  apply IH, loop_body_tracks, H.
Qed.

(** X7.  Throughout a session whose readings are numbers (a NaN, which is
    unequal to itself, is not one and is not represented),
    [last_measurement] is numerically equal to the power of the most recent
    reading in the log, and it is [None] exactly as long as the log is
    empty: a change is always judged against the reading just before. *)
Theorem last_measurement_is_the_latest_reading (ip_address stamp0 : string)
    (ticks : list Tick) :
  let self := self_ (monitor (init ip_address stamp0) ticks) in
  match last_measurement self, last_power (data self) with
  | None, None => data self = []
  | Some m, Some p => m == p
  | _, _ => False
  end.
Proof.
  intros self.
  pose proof (monitor_loop_tracks ticks (start (init ip_address stamp0)) I)
    as H.
  fold (monitor (init ip_address stamp0) ticks) in H. fold self in H.
  unfold tracks in H.
  destruct (last_measurement self), (last_power (data self)) eqn:Hp;
    try exact H.
  unfold last_power in Hp.
  destruct (rev (data self)) as [|[a b] l] eqn:Hr; [|discriminate].
  apply (f_equal (@rev Reading)) in Hr. rewrite rev_involutive in Hr.
  exact Hr.
Qed.

(** X8.  Feeding [check_value_change] the number it has just been given
    changes nothing, whatever the indices: a repeated number never records
    a gap and never moves the stored change index.  (Not so for a NaN,
    which is unequal to itself and is not represented here.) *)
Theorem repeated_value_is_ignored (self : ShellyMonitor) (power : Q)
    (i j : Z) :
  check_value_change (check_value_change self power i) power j
  = check_value_change self power i.
Proof.
  assert (Hstored : exists m,
            last_measurement (check_value_change self power i) = Some m /\
            Qeq_bool m power = true).
  { unfold check_value_change.
    destruct (last_measurement self) as [m|] eqn:Hm.
    - destruct (Qeq_bool m power) eqn:Hc; simpl.
      + exists m. split; assumption.
      + exists power. split; [|apply Qeq_bool_refl].
        destruct (last_change_idx self); reflexivity.
    - exists power. split; [reflexivity | apply Qeq_bool_refl]. }
  destruct Hstored as [m [Hm Hc]].
  unfold check_value_change at 1. rewrite Hm, Hc. reflexivity.
Qed.

(** ** Pauses and the progress line *)

Lemma loop_body_sleeps t st :
  sleeps (out (loop_body t st))
  = sleeps (out st) ++ [sleep_time (self_ (loop_body t st)) t].
Proof.
  unfold loop_body, sleeps, sleep_time.
  destruct (poll t), (sigint t); simpl;
    rewrite ?check_value_change_period; simpl;
    rewrite !flat_map_app; simpl; rewrite ?app_nil_r; reflexivity.
Qed.

Lemma sleep_time_nonneg self t : (0 <= sleep_time self t)%Q.
Proof. unfold sleep_time. apply py_max0_spec. Qed.

Lemma monitor_loop_sleeps ticks : forall st,
  running (self_ st) = true ->
  List.length (sleeps (out (monitor_loop ticks st)))
  = (List.length (sleeps (out st)) + List.length (executed ticks))%nat /\
  (Forall (fun d => (0 <= d)%Q) (sleeps (out st)) ->
   Forall (fun d => (0 <= d)%Q) (sleeps (out (monitor_loop ticks st)))).
Proof.
  induction ticks as [|t rest IH]; intros st Hrun.
  - simpl. split; [lia | auto].
  - cbn [monitor_loop executed]. rewrite Hrun.
    pose proof (loop_body_running t st) as Hb.
    pose proof (loop_body_sleeps t st) as Hs.
    destruct (sigint t) eqn:Hsig.
    + rewrite monitor_loop_stopped by assumption. rewrite Hs.
      split.
      * rewrite length_app. simpl. lia.
      * intros H. apply Forall_app. split; [assumption|].
        constructor; [apply sleep_time_nonneg | constructor].
    + destruct (IH (loop_body t st)) as [Hlen Hall];
        [rewrite Hb; assumption|].
      split.
      * rewrite Hlen, Hs, length_app. simpl. lia.
      * intros H. apply Hall. rewrite Hs. apply Forall_app.
        split; [assumption|].
        constructor; [apply sleep_time_nonneg | constructor].
Qed.

(** X9.  A session whose polls fail or return numbers the progress line
    can show pauses exactly once per iteration it enters, failed polls
    included, and [time.sleep] is never given a negative duration. *)
Theorem one_pause_per_iteration (ip_address stamp0 : string)
    (ticks : list Tick) :
  showable ticks ->
  let pauses := sleeps (out (monitor (init ip_address stamp0) ticks)) in
  List.length pauses = List.length (executed ticks) /\
  Forall (fun d => (0 <= d)%Q) pauses.
Proof.
  intros _ pauses.
  destruct (monitor_loop_sleeps ticks (start (init ip_address stamp0))
              eq_refl) as [Hlen Hall].
  split; [exact Hlen | apply Hall; constructor].
Qed.

Lemma one_pause_per_iteration_witness :
  showable interrupted_trace /\
  List.length
    (sleeps (out (monitor (init "10.0.0.7" "20240101_120000")
                    interrupted_trace)))
  = List.length (executed interrupted_trace).
Proof.
  split; [exact interrupted_trace_showable|].
  exact (proj1 (one_pause_per_iteration "10.0.0.7" "20240101_120000"
                  interrupted_trace interrupted_trace_showable)).
Defined.

(** The sample counts shown by the progress lines, in order. *)
Definition counters (effects : list Effect) : list nat :=
  flat_map (fun e => match e with Progress _ _ n => [n] | _ => [] end)
    effects.

Lemma loop_body_counters t st :
  counters (out (loop_body t st))
  = counters (out st)
    ++ match poll t with
       | Some _ => [S (List.length (data (self_ st)))]
       | None => []
       end.
Proof.
  unfold loop_body, counters.
  destruct (poll t), (sigint t); simpl;
    rewrite ?check_value_change_data; simpl;
    rewrite !flat_map_app; simpl; rewrite ?app_nil_r, ?length_app; simpl;
    rewrite ?Nat.add_1_r; reflexivity.
Qed.

Lemma monitor_loop_counters ticks : forall st,
  running (self_ st) = true ->
  counters (out (monitor_loop ticks st))
  = counters (out st)
    ++ seq (S (List.length (data (self_ st))))
         (List.length (flat_map reading_of (executed ticks))).
Proof.
  induction ticks as [|t rest IH]; intros st Hrun.
  - simpl. rewrite app_nil_r. reflexivity.
  - cbn [monitor_loop executed flat_map]. rewrite Hrun.
    pose proof (loop_body_running t st) as Hb.
    pose proof (loop_body_counters t st) as Hc.
    pose proof (loop_body_data t st) as Hd.
    rewrite length_app.
    destruct (sigint t) eqn:Hsig.
    + rewrite monitor_loop_stopped by assumption. rewrite Hc.
      unfold reading_of. destruct (poll t); simpl; reflexivity.
    + rewrite IH by (rewrite Hb; assumption). rewrite Hc, Hd.
      unfold reading_of. destruct (poll t); simpl.
      * rewrite length_app, <- app_assoc. simpl.
        rewrite Nat.add_1_r. reflexivity.
      * rewrite !app_nil_r. reflexivity.
Qed.

(** X10.  In a session whose polls fail or return numbers the progress line
    can show, the progress lines count the readings: the k-th line printed
    shows "Samples: k", with no number skipped or repeated, and the last
    one shows the size of the log. *)
Theorem progress_lines_count_the_readings (ip_address stamp0 : string)
    (ticks : list Tick) :
  showable ticks ->
  let st := monitor (init ip_address stamp0) ticks in
  counters (out st) = seq 1 (List.length (data (self_ st))).
Proof.
  intros _ st. unfold st, monitor.
  rewrite monitor_loop_counters, monitor_loop_data by reflexivity.
  reflexivity.
Qed.

Lemma progress_lines_count_the_readings_witness :
  showable interrupted_trace /\
  counters (out (monitor (init "10.0.0.7" "20240101_120000")
                   interrupted_trace))
  = seq 1 (List.length
             (data (self_ (monitor (init "10.0.0.7" "20240101_120000")
                             interrupted_trace)))).
Proof.
  split; [exact interrupted_trace_showable|].
  exact (progress_lines_count_the_readings "10.0.0.7" "20240101_120000"
           interrupted_trace interrupted_trace_showable).
Defined.

(** ** The names of the output files *)

Lemma append_cancel_l : forall a b c : string,
  (a ++ b = a ++ c)%string -> b = c.
Proof.
  induction a as [|x a IH]; intros b c H; simpl in H; [assumption|].
  injection H as H. apply IH, H.
Qed.

Lemma length_append : forall a b : string,
  String.length (a ++ b) = (String.length a + String.length b)%nat.
Proof.
  induction a as [|x a IH]; intros b; simpl; [reflexivity|].
  rewrite IH. reflexivity.
Qed.

Lemma append_cancel_r : forall a b c : string,
  (a ++ c = b ++ c)%string -> a = b.
Proof.
  induction a as [|x a IH]; intros [|y b] c H; simpl in H.
  - reflexivity.
  - apply (f_equal String.length) in H. simpl in H.
    rewrite length_append in H. lia.
  - apply (f_equal String.length) in H. simpl in H.
    rewrite length_append in H. lia.
  - injection H as Hx H. rewrite Hx, (IH b c H). reflexivity.
Qed.

(** The three names as a triple. *)
Definition names (self : ShellyMonitor) : string * string * string :=
  (csv_file self, plot_file self, analysis_file self).

Lemma check_value_change_names self p i :
  names (check_value_change self p i) = names self.
Proof. change_paths. Qed.

Lemma loop_body_names t st : names (self_ (loop_body t st)) = names (self_ st).
Proof.
  unfold loop_body.
  destruct (poll t) as [p|], (sigint t); simpl; try reflexivity.
  all: exact (check_value_change_names
                (set_data (self_ st) (data (self_ st) ++ [(stamp t, p)]))
                p (current_idx st)).
Qed.

Lemma monitor_loop_names ticks : forall st,
  names (self_ (monitor_loop ticks st)) = names (self_ st).
Proof.
  induction ticks as [|t rest IH]; intros st; simpl; [reflexivity|].
  destruct (running (self_ st)); [|reflexivity].
  rewrite IH. apply loop_body_names.
Qed.

(** X11.  The three output files of a session have three different names,
    whatever the timestamp, and sessions started at different timestamps
    write to different files; a session keeps the names it started
    with. *)
Theorem output_names_do_not_collide (ip_address stamp0 : string) :
  let self := init ip_address stamp0 in
  csv_file self <> plot_file self /\
  csv_file self <> analysis_file self /\
  plot_file self <> analysis_file self /\
  (forall ip' stamp',
     csv_file (init ip' stamp') = csv_file self \/
     plot_file (init ip' stamp') = plot_file self \/
     analysis_file (init ip' stamp') = analysis_file self ->
     stamp' = stamp0) /\
  (forall ticks, names (self_ (monitor self ticks)) = names self).
Proof.
  intros self. unfold self. simpl.
  split; [|split; [|split; [|split]]].
  - intros H. injection H as H. apply append_cancel_l in H. discriminate.
  - discriminate.
  - discriminate.
  - intros ip' stamp' [H|[H|H]]; injection H as H;
      apply append_cancel_r in H; assumption.
  - intros ticks. unfold monitor. apply monitor_loop_names.
Qed.

(** ** What a session with readings writes *)

Lemma no_artifact_filter effects :
  existsb is_artifact effects = false -> filter is_artifact effects = [].
Proof.
  induction effects as [|e l IH]; simpl; [reflexivity|].
  destruct (is_artifact e); simpl; [discriminate | exact IH].
Qed.

Lemma printed_app a b : printed (a ++ b) = printed a ++ printed b.
Proof. unfold printed. apply flat_map_app. Qed.

(** X12.  Take a session whose polls fail or return numbers the progress
    line can show, and in which writing the files succeeds.  If at least
    one poll succeeded, the program writes exactly three artifacts, in this
    order: the CSV file and the plot, both given the whole reading log, and
    the analysis file, whose content is the analysis that is also the last
    thing printed; their names are the ones derived from the session's
    timestamp.  Without a successful poll it writes none. *)
Theorem session_with_readings_writes_three_files
    (ip_address stamp0 : string) (ticks : list Tick) :
  showable ticks ->
  let self := self_ (monitor (init ip_address stamp0) ticks) in
  let rows := flat_map reading_of (executed ticks) in
  (rows = [] -> filter is_artifact (main ip_address stamp0 ticks) = []) /\
  (rows <> [] ->
   filter is_artifact (main ip_address stamp0 ticks)
   = [ ToCsv ("shelly_power_" ++ stamp0 ++ ".csv") rows;
       SavePlot ("shelly_power_" ++ stamp0 ++ ".png") rows;
       WriteFile ("shelly_analysis_" ++ stamp0 ++ ".txt")
         (analyze_intervals self) ] /\
   last (printed (main ip_address stamp0 ticks)) ""%string
   = analyze_intervals self).
Proof.
  intros _ self rows.
  assert (Hdata : data self = rows).
  { unfold self, monitor. rewrite monitor_loop_data by reflexivity.
    reflexivity. }
  assert (Hnames : names self = names (init ip_address stamp0)).
  { unfold self, monitor. apply monitor_loop_names. }
  unfold names in Hnames. simpl in Hnames.
  injection Hnames as Hcsv Hplot Htxt.
  assert (Hout : filter is_artifact
                   (out (monitor (init ip_address stamp0) ticks)) = []).
  { apply no_artifact_filter. unfold monitor.
    apply monitor_loop_no_artifact. reflexivity. }
  unfold main. fold self. rewrite filter_app, Hout, printed_app. simpl app.
  unfold save_and_plot. rewrite Hdata, Hcsv, Hplot, Htxt.
  split.
  - intros Hnone. rewrite Hnone. reflexivity.
  - intros Hsome. destruct rows as [|r rows']; [congruence|].
    split; [reflexivity|].
    change (printed _ ++ printed ?l)
      with (printed (out (monitor (init ip_address stamp0) ticks))
            ++ printed l).
    cbn [printed flat_map app].
    set (shown := printed (out (monitor (init ip_address stamp0) ticks))).
    replace (shown ++ _)
      with ((shown
             ++ [ (nl ++ "Data saved to " ++ "shelly_power_" ++ stamp0 ++ ".csv")%string;
                  ("Plot saved to " ++ "shelly_power_" ++ stamp0 ++ ".png")%string;
                  ("Analysis saved to " ++ "shelly_analysis_" ++ stamp0 ++ ".txt")%string;
                  (nl ++ "Analysis Summary:")%string ])
            ++ [analyze_intervals self])
      by (rewrite <- app_assoc; reflexivity).
    apply last_last.
Qed.

Lemma session_with_readings_writes_three_files_witness :
  showable interrupted_trace /\
  flat_map reading_of (executed interrupted_trace) <> [] /\
  filter is_artifact (main "10.0.0.7" "20240101_120000" interrupted_trace)
  = [ ToCsv ("shelly_power_" ++ "20240101_120000" ++ ".csv")
        (flat_map reading_of (executed interrupted_trace));
      SavePlot ("shelly_power_" ++ "20240101_120000" ++ ".png")
        (flat_map reading_of (executed interrupted_trace));
      WriteFile ("shelly_analysis_" ++ "20240101_120000" ++ ".txt")
        (analyze_intervals
           (self_ (monitor (init "10.0.0.7" "20240101_120000")
                     interrupted_trace))) ].
Proof.
  assert (Hrows : flat_map reading_of (executed interrupted_trace) <> [])
    by (vm_compute; discriminate).
  split; [exact interrupted_trace_showable|]. split; [exact Hrows|].
  exact (proj1 (proj2 (session_with_readings_writes_three_files
                         "10.0.0.7" "20240101_120000" interrupted_trace
                         interrupted_trace_showable) Hrows)).
Defined.

(** ** What the report of a session says *)

Lemma readings_count ticks :
  List.length (flat_map reading_of ticks)
  = List.length (filter succeeded ticks).
Proof.
  induction ticks as [|t l IH]; [reflexivity|].
  simpl. rewrite length_app, IH. unfold reading_of, succeeded.
  destruct (poll t); reflexivity.
Qed.

Lemma report_header self x rest :
  drop_last (intervals self) = x :: rest ->
  exists tail,
    analyze_intervals self
    = ("Total samples collected: "
         ++ str_int (Z.of_nat (List.length (data self))) ++ nl
         ++ "Number of value changes: "
         ++ str_int (Z.of_nat (List.length (intervals self))) ++ nl
         ++ tail)%string.
Proof.
  intros H. rewrite (analyze_report _ _ _ H).
  unfold statistics_lines.
  destruct (2 <=? py_min x rest); cbn [app String.concat];
    rewrite !append_assoc; eexists; reflexivity.
Qed.

(** X13.  When a session has detected at least two changes, its analysis
    opens with the number of successful polls as "Total samples collected"
    and the number of detected changes as "Number of value changes". *)
Theorem report_counts_polls_and_changes (ip_address stamp0 : string)
    (ticks : list Tick) :
  let changes := change_indices ticks (start (init ip_address stamp0)) in
  let self := self_ (monitor (init ip_address stamp0) ticks) in
  (2 <= List.length changes)%nat ->
  exists tail,
    analyze_intervals self
    = ("Total samples collected: "
         ++ str_int (Z.of_nat (List.length (filter succeeded (executed ticks))))
         ++ nl ++ "Number of value changes: "
         ++ str_int (Z.of_nat (List.length changes)) ++ nl
         ++ tail)%string.
Proof.
  intros changes self Htwo.
  assert (Hgaps : List.length (intervals self) = List.length changes).
  { unfold self, monitor. rewrite gaps_from_scratch by reflexivity.
    simpl app. apply diffs_length. }
  assert (Hdata : List.length (data self)
                  = List.length (filter succeeded (executed ticks))).
  { unfold self, monitor. rewrite monitor_loop_data by reflexivity.
    simpl app. apply readings_count. }
  destruct (drop_last (intervals self)) as [|x rest] eqn:Hdrop.
  - apply drop_last_empty in Hdrop. lia.
  - destruct (report_header self x rest Hdrop) as [tail Ht].
    exists tail. rewrite Ht, Hgaps, Hdata. reflexivity.
Qed.

Lemma report_counts_polls_and_changes_witness :
  (2 <= List.length
          (change_indices (ticks_of_powers example_powers)
             (start (init "192.168.1.50" "20240101_120000"))))%nat /\
  exists tail,
    analyze_intervals
      (self_ (monitor (init "192.168.1.50" "20240101_120000")
                (ticks_of_powers example_powers)))
    = ("Total samples collected: "
         ++ str_int (Z.of_nat (List.length
              (filter succeeded (executed (ticks_of_powers example_powers)))))
         ++ nl ++ "Number of value changes: "
         ++ str_int (Z.of_nat (List.length
              (change_indices (ticks_of_powers example_powers)
                 (start (init "192.168.1.50" "20240101_120000")))))
         ++ nl ++ tail)%string.
Proof.
  assert (H : (2 <= List.length
                 (change_indices (ticks_of_powers example_powers)
                    (start (init "192.168.1.50" "20240101_120000"))))%nat)
    by (vm_compute; lia).
  split; [exact H|].
  exact (report_counts_polls_and_changes "192.168.1.50" "20240101_120000"
           (ticks_of_powers example_powers) H).
Defined.

Lemma recommendation_occurs self x rest :
  drop_last (intervals self) = x :: rest ->
  occurs_in recommendation_text (analyze_intervals self)
  = (2 <=? py_min x rest).
Proof.
  intros H. rewrite (analyze_report _ _ _ H).
  destruct (2 <=? py_min x rest).
  - rewrite concat_app by discriminate. rewrite recommendation_shape.
    rewrite <- (append_assoc _ nl), <- (append_assoc _ nl).
    apply occurs_in_app.
  - rewrite app_nil_r. apply recommendation_absent.
Qed.

Lemma min_below_two_iff_a_one x rest :
  Forall (fun g => 1 <= g) (x :: rest) ->
  (2 <=? py_min x rest) = negb (existsb (Z.eqb 1) (x :: rest)).
Proof.
  intros Hpos.
  assert (Hmin : 1 <= py_min x rest).
  { inversion Hpos; subst. apply py_min_lower; assumption. }
  destruct (Z.leb_spec 2 (py_min x rest)) as [Hge|Hlt].
  - symmetry. apply negb_true_iff.
    destruct (existsb (Z.eqb 1) (x :: rest)) eqn:E; [|reflexivity].
    apply existsb_exists in E. destruct E as [g [Hin Hg]].
    apply Z.eqb_eq in Hg. subst g.
    pose proof (py_min_le_all rest x 1 Hin). lia.
  - symmetry. apply negb_false_iff. apply existsb_exists.
    exists (py_min x rest). split; [apply py_min_in|].
    apply Z.eqb_eq. lia.
Qed.

(** X14.  In the report of a session the recommendation is missing exactly
    when one of the analysed gaps is a single sample, that is, when two
    changes were detected on consecutive readings (or the first change on
    the second reading). *)
Theorem recommendation_withheld_iff_a_gap_of_one
    (ip_address stamp0 : string) (ticks : list Tick) (x : Z)
    (rest : list Z) :
  let self := self_ (monitor (init ip_address stamp0) ticks) in
  drop_last (intervals self) = x :: rest ->
  occurs_in recommendation_text (analyze_intervals self)
  = negb (existsb (Z.eqb 1) (x :: rest)).
Proof.
  intros self Hdrop. rewrite (recommendation_occurs _ _ _ Hdrop).
  apply min_below_two_iff_a_one. rewrite <- Hdrop.
  apply Forall_removelast.
  apply (monitor_loop_idx_inv ticks (start (init ip_address stamp0))).
  apply idx_inv_start; reflexivity.
Qed.

Definition jittery_powers : list Q := [5; 5; 7; 3; 3; 3; 9]%Q.

Lemma recommendation_withheld_iff_a_gap_of_one_witness :
  drop_last
    (intervals (self_ (monitor (init "192.168.1.50" "20240101_120000")
                         (ticks_of_powers jittery_powers))))
  = [2; 1] /\
  occurs_in recommendation_text
    (analyze_intervals
       (self_ (monitor (init "192.168.1.50" "20240101_120000")
                 (ticks_of_powers jittery_powers))))
  = negb (existsb (Z.eqb 1) [2; 1]).
Proof.
  assert (H : drop_last
                (intervals
                   (self_ (monitor (init "192.168.1.50" "20240101_120000")
                             (ticks_of_powers jittery_powers))))
              = [2; 1])
    by (vm_compute; reflexivity).
  split; [exact H|].
  exact (recommendation_withheld_iff_a_gap_of_one
           "192.168.1.50" "20240101_120000"
           (ticks_of_powers jittery_powers) 2 [1] H).
Defined.

(** ** Reading the device: [get_power]

    One request as the world answers it.  [requests.get] either raises
    (no connection, timeout, ...) or returns a response with a status
    code; [raise_for_status] raises for the codes 400 to 599;
    [response.json()] raises unless the body is a JSON document.  A JSON
    text is a [string] of one-byte characters here; an object holds its
    members in document order, and a key that occurs twice has the value
    of its last occurrence, as in the [dict] the decoder builds. *)

Unset Elimination Schemes.

Inductive Json : Type :=
| JNull
| JBool (b : bool)
| JNum (q : Q)
| JStr (s : string)
| JArr (items : list Json)
| JObj (members : list (string * Json)).

Set Elimination Schemes.

Inductive Reply : Type :=
| NoReply
| Response (status : Z) (body : option Json).

(** What the [try] block can raise. *)
Inductive Raised : Type :=
| RequestFailed | HTTPError | DecodeError | KeyError | IndexError | TypeError.

Definition Try (A : Type) : Type := (Raised + A)%type.

Definition bind {A B : Type} (x : Try A) (k : A -> Try B) : Try B :=
  match x with
  | inl e => inl e
  | inr a => k a
  end.

Notation "x <- e ;; k" := (bind e (fun x => k))
  (at level 61, e at next level, right associativity).

Fixpoint dict_get (key : string) (members : list (string * Json))
  : option Json :=
  match members with
  | [] => None
  | (k, v) :: rest =>
      match dict_get key rest with
      | Some later => Some later
      | None => if String.eqb k key then Some v else None
      end
  end.

Definition raise_for_status (status : Z) : Try unit :=
  if (400 <=? status) && (status <? 600) then inl HTTPError else inr tt.

(** [v[key]] for a string key *)
Definition getitem_key (v : Json) (key : string) : Try Json :=
  match v with
  | JObj members =>
      match dict_get key members with
      | Some x => inr x
      | None => inl KeyError
      end
  | _ => inl TypeError
  end.

(** [v[0]] *)
Definition getitem_0 (v : Json) : Try Json :=
  match v with
  | JArr (x :: _) => inr x
  | JArr [] => inl IndexError
  | JStr (String c _) => inr (JStr (String c EmptyString))
  | JStr EmptyString => inl IndexError
  | JObj _ => inl KeyError
  | _ => inl TypeError
  end.

(** The body of the [try]. *)
Definition read_power (r : Reply) : Try Json :=
  match r with
  | NoReply => inl RequestFailed
  | Response status body =>
      _ <- raise_for_status status ;;
      doc <- match body with
             | Some d => inr d
             | None => inl DecodeError
             end ;;
      meters <- getitem_key doc "meters" ;;
      first <- getitem_0 meters ;;
      getitem_key first "power"
  end.

(** [get_power]: the returned value ([None] is Python's [None], which is
    also what a JSON [null] decodes to) and what is printed. *)
Definition get_power (r : Reply) : option Json * list Effect :=
  match read_power r with
  | inr JNull => (None, [])
  | inr v => (Some v, [])
  | inl _ => (None, [PollError])
  end.

(** The replies from which a power value is read: an acceptable status, an
    object whose "meters" is an array that starts with an object having a
    "power" member. *)
Definition well_formed (r : Reply) (v : Json) : Prop :=
  exists status members first others,
    r = Response status (Some (JObj members)) /\
    (status < 400 \/ 600 <= status) /\
    dict_get "meters" members = Some (JArr (JObj first :: others)) /\
    dict_get "power" first = Some v.

Lemma read_power_well_formed r v : read_power r = inr v <-> well_formed r v.
Proof.
  split.
  - destruct r as [|status body]; [discriminate|].
    unfold read_power, raise_for_status, bind.
    destruct ((400 <=? status) && (status <? 600)) eqn:Hs; [discriminate|].
    destruct body as [doc|]; [|discriminate].
    destruct doc as [| | | |items|members]; try discriminate.
    unfold getitem_key at 1.
    destruct (dict_get "meters" members) as [meters|] eqn:Hm; [|discriminate].
    destruct meters as [| | |s|items|ms]; try discriminate.
    + destruct s as [|c s]; [discriminate|]. discriminate.
    + destruct items as [|first others]; [discriminate|].
      simpl. unfold getitem_key.
      destruct first as [| | | |xs|fs]; try discriminate.
      destruct (dict_get "power" fs) as [x|] eqn:Hp; [|discriminate].
      intros [= <-]. exists status, members, fs, others.
      repeat split; try assumption.
      apply andb_false_iff in Hs. destruct Hs as [H|H].
      * left. apply Z.leb_gt. assumption.
      * right. apply Z.ltb_ge. assumption.
  - intros [status [members [first [others [-> [Hs [Hm Hp]]]]]]].
    unfold read_power, raise_for_status, bind.
    assert (Hok : (400 <=? status) && (status <? 600) = false).
    { apply andb_false_iff. destruct Hs; [left; apply Z.leb_gt | right; apply Z.ltb_ge]; assumption. }
    rewrite Hok. unfold getitem_key at 1. rewrite Hm. simpl.
    unfold getitem_key. rewrite Hp. reflexivity.
Qed.

(** X15.  [get_power] returns a value exactly for a response with a status
    outside 400..599 whose body is a JSON object in which "meters" is an
    array whose first element is an object with a non-null "power" member;
    the value is that member, whatever else the body, the first meter and
    the further meters contain, and nothing is printed. *)
Theorem get_power_reads_the_first_meter (r : Reply) (v : Json) :
  (get_power r = (Some v, []) <-> (well_formed r v /\ v <> JNull)) /\
  (fst (get_power r) = Some v -> snd (get_power r) = []).
Proof.
  unfold get_power. split; [split|].
  - destruct (read_power r) as [e|x] eqn:Hr; [discriminate|].
    apply read_power_well_formed in Hr.
    destruct x; simpl; try discriminate; intros [= <-];
      (split; [assumption | discriminate]).
  - intros [Hw Hn]. apply read_power_well_formed in Hw. rewrite Hw.
    destruct v; try reflexivity. congruence.
  - destruct (read_power r) as [e|x]; [discriminate|].
    destruct x; simpl; try discriminate; reflexivity.
Qed.

(** X16.  Whatever the world answers, [get_power] does not raise: every
    failure of the request, of the status check, of the decoding or of one
    of the three subscripts ends as the result [None] with one error line.
    The only [None] without an error line is a "power" member that is
    [null]. *)
Theorem get_power_failures (r : Reply) :
  (read_power r = inr JNull <-> get_power r = (None, [])) /\
  ((forall v, ~ well_formed r v) <-> get_power r = (None, [PollError])) /\
  get_power NoReply = (None, [PollError]) /\
  (forall status body,
     400 <= status < 600 ->
     get_power (Response status body) = (None, [PollError])) /\
  (forall status, get_power (Response status None) = (None, [PollError])) /\
  (forall status members,
     (dict_get "meters" members = None \/
      dict_get "meters" members = Some (JArr [])) ->
     get_power (Response status (Some (JObj members)))
     = (None, [PollError])).
Proof.
  split; [|split; [|split; [|split; [|split]]]].
  - unfold get_power. destruct (read_power r) as [e|x].
    + split; discriminate.
    + destruct x; split; try discriminate; reflexivity.
  - unfold get_power. destruct (read_power r) as [e|x] eqn:Hr.
    + split; [reflexivity|]. intros _ v Hv.
      apply read_power_well_formed in Hv. congruence.
    + split.
      * intros H. exfalso. apply (H x). apply read_power_well_formed, Hr.
      * destruct x; discriminate.
  - reflexivity.
  - intros status body [H1 H2]. unfold get_power, read_power, raise_for_status.
    apply Z.leb_le in H1. apply Z.ltb_lt in H2. rewrite H1, H2. reflexivity.
  - intros status. unfold get_power, read_power, raise_for_status, bind.
    destruct ((400 <=? status) && (status <? 600)); reflexivity.
  - intros status members H.
    unfold get_power, read_power, raise_for_status, bind.
    destruct ((400 <=? status) && (status <? 600)); [reflexivity|].
    unfold getitem_key. destruct H as [-> | ->]; reflexivity.
Qed.

(** ** The trailing gap *)

(** X17.  The value of the last recorded gap has no influence on the
    analysis: two instances with the same number of readings, the same
    sampling period and gap lists that differ only in their last element
    get the same text. *)
Theorem trailing_gap_is_ignored (self other : ShellyMonitor)
    (gaps : list Z) (a b : Z) :
  intervals self = gaps ++ [a] ->
  intervals other = gaps ++ [b] ->
  List.length (data self) = List.length (data other) ->
  sampling_period self = sampling_period other ->
  analyze_intervals self = analyze_intervals other.
Proof.
  intros Ha Hb Hd Hp.
  unfold analyze_intervals, statistics_lines, recommendation_lines, drop_last.
  rewrite Ha, Hb, !removelast_last, !length_app, Hd, Hp. reflexivity.
Qed.

Lemma trailing_gap_is_ignored_witness :
  analyze_intervals (set_intervals (init "10.0.0.7" "20240101_120000") [3; 4; 2])
  = analyze_intervals
      (set_intervals (init "10.0.0.7" "20240101_120000") [3; 4; 900]).
Proof.
  exact (trailing_gap_is_ignored
           (set_intervals (init "10.0.0.7" "20240101_120000") [3; 4; 2])
           (set_intervals (init "10.0.0.7" "20240101_120000") [3; 4; 900])
           [3; 4] 2 900 eq_refl eq_refl eq_refl eq_refl).
Defined.

(** ** C3: the recommendation and the gap before the first change *)

(** The gaps as the specification defines them: the differences between
    consecutive change indices. *)
Definition gaps_between (changes : list Z) : list Z :=
  match changes with
  | [] => []
  | first :: later => diffs first later
  end.

Definition early_change_powers : list Q := [5; 7; 7; 7; 3; 3; 3; 9]%Q.

Lemma early_change_blocks ticks ip_address stamp0 more x rest :
  change_indices ticks (start (init ip_address stamp0)) = 1 :: more ->
  drop_last (intervals (self_ (monitor (init ip_address stamp0) ticks)))
  = x :: rest ->
  occurs_in recommendation_text
    (analyze_intervals (self_ (monitor (init ip_address stamp0) ticks)))
  = false.
Proof.
  intros Hchanges Hdrop. rewrite (recommendation_occurs _ _ _ Hdrop).
  assert (Hgaps : intervals (self_ (monitor (init ip_address stamp0) ticks))
                  = 1 :: diffs 1 more).
  { unfold monitor. rewrite gaps_from_scratch by reflexivity.
    rewrite Hchanges. reflexivity. }
  rewrite Hgaps in Hdrop. unfold drop_last in Hdrop.
  destruct (diffs 1 more) as [|g l]; [discriminate|].
  cbn [removelast] in Hdrop. injection Hdrop as Hx _. subst x.
  pose proof (py_min_le_head rest 1). apply Z.leb_gt. lia.
Qed.

(** C3.  On the powers 5,7,7,7,3,3,3,9 the changes are found at the indices
    1, 4 and 7, so the gaps between changes are 3 and 3 and the only
    interior gap is 3; yet the recorded gaps are 1, 3, 3, the analysis
    takes its minimum over 1 and 3, prints "Minimum: 1 samples" and gives
    no recommendation.  More generally, whenever the first change comes
    right after the first reading, no report of the session contains the
    recommendation, whatever the gaps between the changes are. *)
Theorem leading_gap_withholds_recommendation (ip_address stamp0 : string) :
  let st := start (init ip_address stamp0) in
  let ticks := ticks_of_powers early_change_powers in
  let self := self_ (monitor (init ip_address stamp0) ticks) in
  change_indices ticks st = [1; 4; 7] /\
  gaps_between (change_indices ticks st) = [3; 3] /\
  drop_last (gaps_between (change_indices ticks st)) = [3] /\
  intervals self = [1; 3; 3] /\
  drop_last (intervals self) = [1; 3] /\
  occurs_in recommendation_text (analyze_intervals self) = false /\
  analyze_intervals self
  = String.concat nl
      [ "Total samples collected: 8";
        "Number of value changes: 3";
        "";
        "Intervals between value changes:";
        "Minimum: 1 samples (1.0 seconds)";
        "Average: 2.0 samples (2.0 seconds)";
        "Maximum: 3 samples (3.0 seconds)" ]%string /\
  (forall any_ticks more x rest,
     change_indices any_ticks st = 1 :: more ->
     drop_last (intervals (self_ (monitor (init ip_address stamp0) any_ticks)))
     = x :: rest ->
     occurs_in recommendation_text
       (analyze_intervals
          (self_ (monitor (init ip_address stamp0) any_ticks)))
     = false).
Proof.
  intros st ticks self.
  assert (Htext : analyze_intervals self
    = String.concat nl
        [ "Total samples collected: 8";
          "Number of value changes: 3";
          "";
          "Intervals between value changes:";
          "Minimum: 1 samples (1.0 seconds)";
          "Average: 2.0 samples (2.0 seconds)";
          "Maximum: 3 samples (3.0 seconds)" ]%string)
    by (vm_compute; reflexivity).
  split; [reflexivity|]. split; [reflexivity|]. split; [reflexivity|].
  split; [reflexivity|]. split; [reflexivity|].
  split; [rewrite Htext; vm_compute; reflexivity|].
  split; [exact Htext|].
  intros any_ticks more x rest. apply early_change_blocks.
Qed.
